(** * llm-projects: a shallow embedding of the two demonstration scripts

    The development follows the repository file by file:

    - [Py]      the fragment of the Python runtime the scripts rely on
                (text strings, exceptions, list indexing, text-mode line
                iteration) and the effect monad the embedded code runs in;
    - [Loader]  [rag-news-assistant/loader.py];
    - [Faiss]   the flat L2 index the pipeline delegates its search to;
    - [Rag]     [rag-news-assistant/rag_pipeline.py];
    - [App]     [rag-news-assistant/app.py];
    - [Agent]   [LangChain/.../ollama_langchain_agent.py].

    The third-party models (sentence embedder, text generator,
    language-model agent) and the component type of the embeddings are
    interfaces, [ModelHub], [LangChain] and [Numeric]: every statement
    holds for all their instances.  [Spec] holds the vocabulary of the
    statements and [Sample] small instances to run the embedding on; the
    facts follow the definitions, in the same order. *)

From Stdlib Require Import List ZArith NArith Lia Bool String Ascii.
From Stdlib Require Import Sorting.Sorted Sorting.Permutation.
Import ListNotations.

Set Implicit Arguments.

(* ================================================================== *)
(** * The Python fragment *)
(* ================================================================== *)

Module Py.

(** A Python [str] is a sequence of Unicode code points. *)
Definition char := N.
Definition str := list char.

(** String literals of the source, written as Rocq strings. *)
Definition lit (s : string) : str :=
  List.map N_of_ascii (list_ascii_of_string s).

Definition LF : char := 10%N.
Definition CR : char := 13%N.

Fixpoint str_eqb (a b : str) : bool :=
  match a, b with
  | [], [] => true
  | x :: a', y :: b' => N.eqb x y && str_eqb a' b'
  | _, _ => false
  end.

(** [str.isspace] on one code point: the table behind
    [Py_UNICODE_ISSPACE]. *)
Definition isspace (c : char) : bool :=
  ((9 <=? c) && (c <=? 13) || (28 <=? c) && (c <=? 32)
   || (c =? 133) || (c =? 160) || (c =? 5760)
   || (8192 <=? c) && (c <=? 8202)
   || (c =? 8232) || (c =? 8233) || (c =? 8239) || (c =? 8287)
   || (c =? 12288))%N.

(** [s.lstrip()], [s.rstrip()], [s.strip()] with no argument. *)
Fixpoint lstrip (s : str) : str :=
  match s with
  | [] => []
  | c :: r => if isspace c then lstrip r else s
  end.

Definition rstrip (s : str) : str := rev (lstrip (rev s)).

Definition strip (s : str) : str := rstrip (lstrip s).

(** Truth value of a [str]: the empty string is false. *)
Definition truthy (s : str) : bool :=
  match s with [] => false | _ :: _ => true end.

(** [sep.join(parts)]. *)
Fixpoint join (sep : str) (parts : list str) : str :=
  match parts with
  | [] => []
  | [p] => p
  | p :: rest => p ++ sep ++ join sep rest
  end.

(** ** Exceptions *)

Inductive exn_class : Type :=
| BaseException
| SystemExit
| KeyboardInterrupt
| GeneratorExit
| Exception
| LookupError
| IndexError
| KeyError
| OSError
| FileNotFoundError
| ConnectionError
| ValueError
| RuntimeError
| AssertionError
| Derived (name : string) (base : exn_class).

(** The proper ancestors of a class, nearest first. *)
Fixpoint bases (c : exn_class) : list exn_class :=
  match c with
  | BaseException => []
  | SystemExit | KeyboardInterrupt | GeneratorExit | Exception =>
      [BaseException]
  | LookupError | OSError | ValueError | RuntimeError | AssertionError =>
      [Exception; BaseException]
  | IndexError | KeyError => [LookupError; Exception; BaseException]
  | FileNotFoundError | ConnectionError =>
      [OSError; Exception; BaseException]
  | Derived _ b => b :: bases b
  end.

Fixpoint class_eqb (c d : exn_class) : bool :=
  match c, d with
  | BaseException, BaseException
  | SystemExit, SystemExit
  | KeyboardInterrupt, KeyboardInterrupt
  | GeneratorExit, GeneratorExit
  | Exception, Exception
  | LookupError, LookupError
  | IndexError, IndexError
  | KeyError, KeyError
  | OSError, OSError
  | FileNotFoundError, FileNotFoundError
  | ConnectionError, ConnectionError
  | ValueError, ValueError
  | RuntimeError, RuntimeError
  | AssertionError, AssertionError => true
  | Derived n b, Derived n' b' => String.eqb n n' && class_eqb b b'
  | _, _ => false
  end.

Definition issubclass (c d : exn_class) : bool :=
  class_eqb c d || existsb (class_eqb d) (bases c).

(** A raised exception: its class and the text [str(e)] yields. *)
Record exn : Type := mk_exn { exn_class_of : exn_class; exn_str : str }.

Definition isinstance (e : exn) (c : exn_class) : bool :=
  issubclass (exn_class_of e) c.

Inductive outcome (A : Type) : Type :=
| Ret (a : A)
| Raise (e : exn).
Arguments Ret {A} a.
Arguments Raise {A} e.

(** ** Sequence indexing *)

(** [l[i]] on a list: negative indices count from the end, anything
    outside [-len(l) <= i < len(l)] raises [IndexError]. *)
Definition index_error : exn :=
  mk_exn IndexError (lit "list index out of range").

Definition getitem {A : Type} (l : list A) (i : Z) : outcome A :=
  let n := Z.of_nat (List.length l) in
  let j := (if i <? 0 then i + n else i)%Z in
  if ((j <? 0) || (n <=? j))%Z then Raise index_error
  else match nth_error l (Z.to_nat j) with
       | Some x => Ret x
       | None => Raise index_error
       end.

(** ** Text files *)

(** Reading in text mode with the default [newline=None]: the three line
    endings are translated to a line feed. *)
Fixpoint universal_newlines (s : str) : str :=
  match s with
  | [] => []
  | c :: rest =>
      if (c =? CR)%N then
        match rest with
        | d :: rest' =>
            if (d =? LF)%N then LF :: universal_newlines rest'
            else LF :: universal_newlines rest
        | [] => [LF]
        end
      else c :: universal_newlines rest
  end.

(** Cutting translated text after every line feed; each line keeps its
    terminator, the last one may have none. *)
Fixpoint split_lines (s : str) : list str :=
  match s with
  | [] => []
  | c :: rest =>
      if (c =? LF)%N then [c] :: split_lines rest
      else match split_lines rest with
           | [] => [[c]]
           | l :: ls => (c :: l) :: ls
           end
  end.

(** What [for line in f] enumerates. *)
Definition file_lines (content : str) : list str :=
  split_lines (universal_newlines content).

(** A file system maps a path to the decoded text of the file there. *)
Definition filesystem := str -> option str.

(** The error of opening a file that is not there; its text quotes the
    path the way [repr] does for a path without quote or escape. *)
Definition file_not_found (path : str) : exn :=
  mk_exn FileNotFoundError
    (lit "[Errno 2] No such file or directory: '" ++ path ++ lit "'").

Definition open_r (fs : filesystem) (path : str) : outcome str :=
  match fs path with
  | Some content => Ret content
  | None => Raise (file_not_found path)
  end.

(** ** Effects

    A computation reads and updates a state, finishes with a value or a
    raised exception, and leaves the calls it made to the outside world
    (standard output, the chat page, the third-party models) in a log. *)

Inductive event : Type :=
| EvPrint (text : str)
| EvTitle (text : str)
| EvChatWrite (role content : str)
| EvLoadModel (name : str)
| EvEncode (sentences : list str)
| EvIndexAdd (rows : nat)
| EvIndexSearch (queries k : nat)
| EvGenerate (prompt : str) (max_new_tokens : nat)
| EvAgentRun (question : str).

Definition M (S A : Type) : Type := S -> outcome A * S * list event.

Definition ret {S A : Type} (a : A) : M S A := fun s => (Ret a, s, []).

Definition bind {S A B : Type} (m : M S A) (f : A -> M S B) : M S B :=
  fun s =>
    match m s with
    | (Ret a, s1, t1) => let '(o, s2, t2) := f a s1 in (o, s2, t1 ++ t2)
    | (Raise e, s1, t1) => (Raise e, s1, t1)
    end.

Definition lift {S A : Type} (o : outcome A) : M S A := fun s => (o, s, []).

Definition gets {S A : Type} (f : S -> A) : M S A :=
  fun s => (Ret (f s), s, []).

Definition modify {S : Type} (f : S -> S) : M S unit :=
  fun s => (Ret tt, f s, []).

Definition emit {S : Type} (ev : event) : M S unit :=
  fun s => (Ret tt, s, [ev]).

(** Running a computation on a component of a larger state. *)
Definition zoom {S T A : Type} (proj : T -> S) (upd : S -> T -> T)
  (m : M S A) : M T A :=
  fun t => let '(o, s', tr) := m (proj t) in (o, upd s' t, tr).

(** [try: body / except cls as e: handler e]. *)
Definition try_except {S A : Type} (body : M S A) (cls : exn_class)
  (handler : exn -> M S A) : M S A :=
  fun s =>
    match body s with
    | (Ret a, s1, t1) => (Ret a, s1, t1)
    | (Raise e, s1, t1) =>
        if isinstance e cls
        then let '(o, s2, t2) := handler e s1 in (o, s2, t1 ++ t2)
        else (Raise e, s1, t1)
    end.

(** [[f(x) for x in xs]] and [for x in xs: f(x)]. *)
Fixpoint list_comp {S A B : Type} (f : A -> M S B) (xs : list A)
  : M S (list B) :=
  match xs with
  | [] => ret []
  | x :: xs' =>
      bind (f x) (fun y => bind (list_comp f xs') (fun ys => ret (y :: ys)))
  end.

Fixpoint for_each {S A : Type} (f : A -> M S unit) (xs : list A)
  : M S unit :=
  match xs with
  | [] => ret tt
  | x :: xs' => bind (f x) (fun _ => for_each f xs')
  end.

Definition print {S : Type} (text : str) : M S unit := emit (EvPrint text).

(** Projections of a finished run. *)
Definition result_of {A S : Type} (r : outcome A * S * list event)
  : outcome A := fst (fst r).
Definition state_of {A S : Type} (r : outcome A * S * list event)
  : S := snd (fst r).
Definition log_of {A S : Type} (r : outcome A * S * list event)
  : list event := snd r.

(** A parameter with a default value. *)
Definition default_arg {A : Type} (dflt : A) (given : option A) : A :=
  match given with Some a => a | None => dflt end.

End Py.

Import Py.

Declare Scope py_scope.
Delimit Scope py_scope with py.
Notation "x <- m ;; k" := (bind m (fun x => k))
  (at level 61, m at next level, right associativity) : py_scope.
Notation "m ;;; k" := (bind m (fun _ => k))
  (at level 61, right associativity) : py_scope.
Open Scope py_scope.

(* ================================================================== *)
(** * rag-news-assistant/loader.py *)
(* ================================================================== *)

Module Loader.

Definition default_file_path : str := lit "data/news_sample.txt".

(** [load_news(file_path="data/news_sample.txt")]. *)
Definition load_news {S : Type} (fs : filesystem) (file_path : option str)
  : M S (list str) :=
  let file_path := default_arg default_file_path file_path in
  f <- lift (open_r fs file_path) ;;
  docs <- list_comp (fun line => ret (strip line))
            (filter (fun line => truthy (strip line)) (file_lines f)) ;;
  ret docs.

End Loader.

(* ================================================================== *)
(** * The flat L2 index *)
(* ================================================================== *)

(** The component type of an embedding: the operations the distance
    computation uses, the two comparisons of the search and the largest
    finite value, which the search starts its thresholds from.  Nothing
    is assumed of it here, so that a type with values that compare with
    nothing (a not-a-number) is an instance; the ordering results ask for
    a comparison that is total on the values below the largest one. *)
Class Numeric : Type := {
  num : Type;
  nzero : num;
  nadd : num -> num -> num;
  nsub : num -> num -> num;
  nmul : num -> num -> num;
  nleb : num -> num -> bool;
  nltb : num -> num -> bool;
  nmax : num
}.

(** The index is the library's, not the repository's; it is modelled by
    what it does: vectors are stored in the order they are added and
    labelled by position; a search asks for at least one result, compares
    the query with every stored vector, keeps a vector only when its
    distance is strictly below the largest finite value, and returns, per
    query, the [k] smallest distances kept in ascending order with their
    labels, filling the slots it cannot fill with the label [-1]. *)
Module Faiss.
Section WithNumeric.
Context {NN : Numeric}.

Definition vec : Type := list num.

(** A two-dimensional array, one row per vector. *)
Definition matrix : Type := list vec.

(** [a.shape[1]].  The array an empty batch encodes to has one axis of
    length zero, so asking for its second axis fails. *)
Definition tuple_index_error : exn :=
  mk_exn IndexError (lit "tuple index out of range").

Definition shape1 (a : matrix) : outcome nat :=
  match a with
  | [] => Raise tuple_index_error
  | row :: _ => Ret (List.length row)
  end.

(** Squared Euclidean distance, accumulated component by component
    (the rows of an array and a query of the same model have the same
    length; on lists of different lengths the surplus is ignored). *)
Definition fvec_L2sqr (x y : vec) : num :=
  fold_left (fun acc xy => let d := nsub (fst xy) (snd xy) in
                           nadd acc (nmul d d))
            (combine x y) nzero.

(** [faiss.IndexFlatL2]: the dimension and the stored vectors, in the
    order they were added; a vector's label is its position. *)
Record IndexFlatL2 : Type := mk_index { d : nat; xb : matrix }.

Definition ntotal (ix : IndexFlatL2) : nat := List.length (xb ix).

Definition IndexFlatL2_new (dim : nat) : IndexFlatL2 := mk_index dim [].

Definition add (ix : IndexFlatL2) (x : matrix) : IndexFlatL2 :=
  mk_index (d ix) (xb ix ++ x).

(** One candidate of a search: a stored vector's label and its distance
    to the query. *)
Record hit : Type := mk_hit { hit_dist : num; hit_label : nat }.

(** Keeping the candidates in ascending distance; a newcomer goes after
    the candidates it ties with. *)
Fixpoint insert_hit (h : hit) (l : list hit) : list hit :=
  match l with
  | [] => [h]
  | h' :: l' =>
      if nleb (hit_dist h') (hit_dist h) then h' :: insert_hit h l'
      else h :: l
  end.

(** A candidate enters the results only below the threshold the search
    starts from. *)
Definition admitted (h : hit) : bool := nltb (hit_dist h) nmax.

(** The exhaustive scan: every stored vector, taken in the order of the
    labels, is compared with the query. *)
Definition scan_step (q : vec) (acc : list hit) (jy : nat * vec) : list hit :=
  let h := mk_hit (fvec_L2sqr q (snd jy)) (fst jy) in
  if admitted h then insert_hit h acc else acc.

Definition scan (q : vec) (base : matrix) : list hit :=
  fold_left (scan_step q) (combine (seq 0 (List.length base)) base) [].

(** The [k] nearest of one query; slots the index cannot fill carry the
    label [-1] and the largest distance. *)
Definition search1 (ix : IndexFlatL2) (k : nat) (q : vec)
  : list num * list Z :=
  let top := firstn k (scan q (xb ix)) in
  let missing := k - List.length top in
  (List.map hit_dist top ++ repeat nmax missing,
   List.map (fun h => Z.of_nat (hit_label h)) top ++ repeat (-1)%Z missing).

(** The failure of [assert k > 0]. *)
Definition assertion_error : exn := mk_exn AssertionError [].

(** [D, I = index.search(x, k)]: one row of distances and one row of
    labels per query row; a result count of zero is refused. *)
Definition search (ix : IndexFlatL2) (x : matrix) (k : nat)
  : outcome (matrix * list (list Z)) :=
  if Nat.eqb k 0 then Raise assertion_error
  else Ret (List.map (fun q => fst (search1 ix k q)) x,
            List.map (fun q => snd (search1 ix k q)) x).

End WithNumeric.
End Faiss.

(* ================================================================== *)
(** * rag-news-assistant/rag_pipeline.py *)
(* ================================================================== *)

Module Rag.
Import Faiss.

(** One entry of the list a text-generation call returns. *)
Record generation : Type := mk_generation { generated_text : str }.

(** The two model objects, by what a call on them computes: a sentence
    embedder encodes one sentence to a vector (a batch row by row), a
    generator maps a prompt and a token cap to its candidates. *)
Definition Embedder {NN : Numeric} : Type := str -> vec.
Definition Generator : Type := str -> nat -> list generation.

(** Loading a model by name: [SentenceTransformer(name)] and
    [pipeline("text2text-generation", model=name)].  The models are taken
    to load and to compute: a run in which loading, encoding or
    generating itself raises (a name the hub does not know, no memory)
    is not covered. *)
Class ModelHub {NN : Numeric} : Type := {
  SentenceTransformer : str -> Embedder;
  text2text_generation : str -> Generator
}.

Section WithModels.
Context {NN : Numeric} {MH : ModelHub}.

Record RAGPipeline : Type := mk_pipeline {
  docs : list str;
  embedder : Embedder;
  embeddings : matrix;
  index : IndexFlatL2;
  generator : Generator
}.

(** Calls into the libraries, each leaving its entry in the log. *)
Definition encode {S : Type} (e : Embedder) (sentences : list str)
  : M S matrix :=
  emit (EvEncode sentences) ;;; ret (List.map e sentences).

Definition index_add {S : Type} (ix : IndexFlatL2) (x : matrix)
  : M S IndexFlatL2 :=
  emit (EvIndexAdd (List.length x)) ;;; ret (add ix x).

Definition index_search {S : Type} (ix : IndexFlatL2) (x : matrix) (k : nat)
  : M S (matrix * list (list Z)) :=
  emit (EvIndexSearch (List.length x) k) ;;; lift (search ix x k).

Definition call_generator {S : Type} (g : Generator) (prompt : str)
  (max_new_tokens : nat) : M S (list generation) :=
  emit (EvGenerate prompt max_new_tokens) ;;; ret (g prompt max_new_tokens).

Definition default_embedding_model : str := lit "all-MiniLM-L6-v2".
Definition default_gen_model : str := lit "google/flan-t5-base".
Definition default_top_k : nat := 3.

(** [RAGPipeline(docs, embedding_model=..., gen_model=...)]: the object
    [__init__] leaves behind. *)
Definition init {S : Type} (docs : list str)
  (embedding_model gen_model : option str) : M S RAGPipeline :=
  let embedding_model := default_arg default_embedding_model embedding_model in
  let gen_model := default_arg default_gen_model gen_model in
  emit (EvLoadModel embedding_model) ;;;
  let embedder := SentenceTransformer embedding_model in
  embeddings <- encode embedder docs ;;
  dim <- lift (shape1 embeddings) ;;
  let index := IndexFlatL2_new dim in
  index <- index_add index embeddings ;;
  emit (EvLoadModel gen_model) ;;;
  let generator := text2text_generation gen_model in
  ret (mk_pipeline docs embedder embeddings index generator).

(** [self.retrieve(query, top_k=3)]. *)
Definition retrieve (query : str) (top_k : option nat)
  : M RAGPipeline (list str) :=
  let top_k := default_arg default_top_k top_k in
  e <- gets embedder ;;
  query_emb <- encode e [query] ;;
  ix <- gets index ;;
  DI <- index_search ix query_emb top_k ;;
  I0 <- lift (getitem (snd DI) 0) ;;
  list_comp (fun i => ds <- gets docs ;; lift (getitem ds i)) I0.

(** The prompt of [generate]. *)
Definition prompt_of (query : str) (context : list str) : str :=
  lit "Context: " ++ join (lit " ") context ++ [LF; LF]
  ++ lit "Question: " ++ query ++ [LF] ++ lit "Answer:".

(** [self.generate(query, context)]. *)
Definition generate (query : str) (context : list str)
  : M RAGPipeline str :=
  let prompt := prompt_of query context in
  g <- gets generator ;;
  result <- call_generator g prompt 64 ;;
  first <- lift (getitem result 0) ;;
  ret (generated_text first).

(** [self.answer(query)]. *)
Definition answer (query : str) : M RAGPipeline str :=
  context <- retrieve query None ;;
  generate query context.

End WithModels.
End Rag.

(* ================================================================== *)
(** * rag-news-assistant/app.py *)
(* ================================================================== *)

Module App.
Import Faiss Rag.
Section WithModels.
Context {NN : Numeric} {MH : ModelHub}.
Variable fs : filesystem.

(** One entry of the chat history: [{"role": ..., "content": ...}]. *)
Record message : Type := mk_message { role : str; content : str }.

(** What outlives one run of the script: the resource cache behind
    [get_pipeline] and [st.session_state], where the [messages] entry may
    not exist yet. *)
Record Session : Type := mk_session {
  cached_pipeline : option RAGPipeline;
  session_messages : option (list message)
}.

(** The names the body of the script works with once lines 12 to 15 have
    run: the pipeline object and the message list of the session. *)
Record Page : Type := mk_page {
  pipeline : RAGPipeline;
  messages : list message
}.

(** The title starts with the newspaper emoji, U+1F4F0. *)
Definition title_text : str :=
  128240%N :: lit " News-Based Q&A Assistant (RAG)".

(** [get_pipeline()] without its cache. *)
Definition get_pipeline {S : Type} : M S RAGPipeline :=
  docs <- Loader.load_news fs None ;;
  init docs None None.

(** [st.session_state.messages.append(m)]. *)
Definition append_message (m : message) : M Page unit :=
  modify (fun p => mk_page (pipeline p) (messages p ++ [m])).

(** A method call on the pipeline object of the page. *)
Definition on_pipeline {A : Type} (m : M RAGPipeline A) : M Page A :=
  zoom pipeline (fun pl p => mk_page pl (messages p)) m.

Definition chat_write {S : Type} (role content : str) : M S unit :=
  emit (EvChatWrite role content).

(** Lines 17 and 18: the stored history is drawn again. *)
Definition render_history : M Page unit :=
  msgs <- gets messages ;;
  for_each (fun msg => chat_write (role msg) (content msg)) msgs.

(** Lines 22 to 27: what happens with the value of the input box, [None]
    when nothing was submitted. *)
Definition on_chat_input (user_input : option str) : M Page unit :=
  match user_input with
  | None => ret tt
  | Some user_input =>
      if truthy user_input then
        append_message (mk_message (lit "user") user_input) ;;;
        answer <- on_pipeline (Rag.answer user_input) ;;
        append_message (mk_message (lit "assistant") answer) ;;;
        chat_write (lit "assistant") answer
      else ret tt
  end.

(** [@st.cache_resource]: the pipeline is built on the first call and
    handed out again on every later one. *)
Definition cached_get_pipeline : M Session RAGPipeline :=
  fun s =>
    match cached_pipeline s with
    | Some p => (Ret p, s, [])
    | None =>
        let '(o, _, log) := get_pipeline tt in
        (o,
         match o with
         | Ret p => mk_session (Some p) (session_messages s)
         | Raise _ => s
         end,
         log)
    end.

(** Lines 14 and 15: a session without history gets an empty one. *)
Definition ensure_messages : M Session unit :=
  modify (fun s => mk_session (cached_pipeline s)
                     (Some (default_arg [] (session_messages s)))).

(** The rest of the script works on the pipeline object and the message
    list, both shared with the session. *)
Definition on_page {A : Type} (p : RAGPipeline) (m : M Page A)
  : M Session A :=
  fun s =>
    let '(o, pg, log) :=
      m (mk_page p (default_arg [] (session_messages s))) in
    (o, mk_session (Some (pipeline pg)) (Some (messages pg)), log).

(** One run of the script, from the session it finds to the session it
    leaves; [user_input] is what the input box returns in this run. *)
Definition script (user_input : option str) : M Session unit :=
  emit (EvTitle title_text) ;;;
  p <- cached_get_pipeline ;;
  ensure_messages ;;;
  on_page p (render_history ;;; on_chat_input user_input).

End WithModels.
End App.

(* ================================================================== *)
(** * LangChain/.../ollama_langchain_agent.py *)
(* ================================================================== *)

Module Agent.

(** [datetime.date] and [datetime.datetime]. *)
Record date : Type := mk_date { year : Z; month : Z; day : Z }.

Record datetime : Type := mk_datetime {
  date_of : date;
  hour : Z; minute : Z; second : Z; microsecond : Z
}.

(** [a > b] on dates: year, month and day are compared in that order. *)
Definition date_gt (a b : date) : bool :=
  ((year b <? year a)
   || (year a =? year b)
      && ((month b <? month a)
          || (month a =? month b) && (day b <? day a)))%Z.

Definition target_date : date := mk_date 2024 6 12.

(** Lines 12 to 17: the model name chosen for a current date. *)
Definition llm_model (current_date : date) : str :=
  if date_gt current_date target_date then lit "llama2"
  else lit "llama2:7b".

(** The calendar, for stating what a comparison of dates means: the
    number of days from 0001-01-01, as [date.toordinal] counts them. *)
Definition is_leap (y : Z) : bool :=
  ((y mod 4 =? 0) && (negb (y mod 100 =? 0) || (y mod 400 =? 0)))%Z.

Definition days_in_month (y m : Z) : Z :=
  (if m =? 2 then (if is_leap y then 29 else 28)
   else if (m =? 4) || (m =? 6) || (m =? 9) || (m =? 11) then 30
   else 31)%Z.

Definition days_before_year (y : Z) : Z :=
  ((y - 1) * 365 + (y - 1) / 4 - (y - 1) / 100 + (y - 1) / 400)%Z.

Definition days_before_month (y m : Z) : Z :=
  fold_left Z.add
    (List.map (days_in_month y) (List.map Z.of_nat (seq 1 (Z.to_nat m - 1)))) 0%Z.

Definition toordinal (dt : date) : Z :=
  (days_before_year (year dt) + days_before_month (year dt) (month dt)
   + day dt)%Z.

(** The dates a [datetime.date] object can hold. *)
Definition valid_date (dt : date) : Prop :=
  (1 <= year dt <= 9999 /\ 1 <= month dt <= 12
   /\ 1 <= day dt <= days_in_month (year dt) (month dt))%Z.

Inductive AgentType : Type :=
| ZERO_SHOT_REACT_DESCRIPTION
| CHAT_ZERO_SHOT_REACT_DESCRIPTION.

Record agent_options : Type := mk_options {
  agent_type : AgentType;
  handle_parsing_errors : bool;
  verbose : bool;
  max_iterations : Z;
  max_execution_time : Z
}.

(** The LangChain and Ollama objects the script builds, and what running
    the agent on a question comes to: a result or a raised exception.
    Building the objects (lines 23 to 44, outside the [try]) and printing
    are taken to succeed: only the exceptions of the agent's run are
    followed. *)
Class LangChain : Type := {
  llm : Type;
  tool : Type;
  executor : Type;
  result : Type;
  Ollama : str -> Z -> llm;
  load_tools : list str -> llm -> list tool;
  initialize_agent : list tool -> llm -> agent_options -> executor;
  run : executor -> str -> outcome result;
  result_str : result -> str
}.

Section WithLangChain.
Context {LC : LangChain}.

Definition question : str :=
  lit "Tom M. Mitchell is an American computer scientist "
  ++ lit "and the Founders University Professor at Carnegie Mellon University (CMU)"
  ++ lit "what book did he write?".

Definition hint : str :=
  lit "Make sure Ollama is running and the model is available".

Definition call_agent {S : Type} (agent : executor) (q : str) : M S result :=
  emit (EvAgentRun q) ;;; lift (run agent q).

(** The script, run at the instant [now]; the state is empty, the log is
    what reaches standard output and the agent.  Building the client, the
    tools and the agent is taken to succeed: what is followed is the run
    of the agent inside the [try]. *)
Definition script (now : datetime) : M unit unit :=
  let current_date := date_of now in
  let llm_model := llm_model current_date in
  let llm := Ollama llm_model 0 in
  let tools := load_tools [lit "llm-math"; lit "wikipedia"] llm in
  let agent :=
    initialize_agent tools llm
      (mk_options CHAT_ZERO_SHOT_REACT_DESCRIPTION true true 3 60) in
  try_except
    (result <- call_agent agent question ;;
     print (lit "Result: " ++ result_str result))
    Exception
    (fun e =>
       print (lit "Error occurred: " ++ exn_str e) ;;;
       print hint).

End WithLangChain.
End Agent.

(* ================================================================== *)
(** * Vocabulary of the statements *)
(* ================================================================== *)

Module Spec.
Import Faiss Rag.

(** A line that is empty or holds white space only. *)
Definition blank (l : str) : bool := forallb isspace l.

(** No white space at either end, and not empty. *)
Definition trimmed (s : str) : Prop :=
  s <> []
  /\ (forall c, hd_error s = Some c -> isspace c = false)
  /\ (forall c, hd_error (rev s) = Some c -> isspace c = false).

(** [t] is [s] with white space removed at its two ends and nowhere
    else. *)
Definition trims_to (s t : str) : Prop :=
  exists before after,
    s = before ++ t ++ after
    /\ blank before = true /\ blank after = true /\ trimmed t.

Definition not_blank (l : str) : bool := negb (blank l).

(** The documents of a file, said in the words of the specification: its
    lines that are not blank, each trimmed, in file order. *)
Definition documents_of (content : str) : list str :=
  List.map strip (filter not_blank (file_lines content)).

(** The distance a retrieval orders by: from the embedding of the query
    to the embedding of a document. *)
Definition doc_distance {NN : Numeric} (e : Embedder) (query doc : str)
  : num := fvec_L2sqr (e query) (e doc).

Definition closer_or_equal {NN : Numeric} (e : Embedder) (query : str)
  (a b : str) : Prop :=
  nleb (doc_distance e query a) (doc_distance e query b) = true.

(** Candidates in ascending distance. *)
Definition ascending {NN : Numeric} : list hit -> Prop :=
  Sorted (fun a b => nleb (hit_dist a) (hit_dist b) = true).

(** The document a label selects in a corpus, by the indexing rule of
    Python lists. *)
Definition resolve (corpus : list str) (i : Z) : str :=
  nth (Z.to_nat (if (i <? 0)%Z then i + Z.of_nat (List.length corpus) else i))
      corpus [].

(** Indexing a corpus at each label of a row in turn; the first failure
    ends it. *)
Fixpoint pick (corpus : list str) (I0 : list Z) : outcome (list str) :=
  match I0 with
  | [] => Ret []
  | i :: rest =>
      match getitem corpus i with
      | Raise e => Raise e
      | Ret doc =>
          match pick corpus rest with
          | Raise e => Raise e
          | Ret found => Ret (doc :: found)
          end
      end
  end.

(** A comparison under which any two values below the largest one are
    comparable. *)
Definition total_below_max (NN : Numeric) : Prop :=
  forall a b : num,
    nltb a nmax = true -> nltb b nmax = true ->
    nleb a b = true \/ nleb b a = true.

(** The distance from the query to a document is below the largest
    value, so that the search keeps the document. *)
Definition within_range {NN : Numeric} (e : Embedder) (query doc : str)
  : Prop :=
  nltb (doc_distance e query doc) nmax = true.

Section WithModels.
Context {NN : Numeric} {MH : ModelHub}.

(** The object a successful construction leaves, field by field. *)
Definition built (corpus : list str) (em gm : option str) : RAGPipeline :=
  let e := SentenceTransformer (default_arg default_embedding_model em) in
  mk_pipeline corpus e (List.map e corpus)
    (mk_index (List.length (e (hd [] corpus))) (List.map e corpus))
    (text2text_generation (default_arg default_gen_model gm)).

(** The label row the search of [retrieve] yields. *)
Definition label_row (p : RAGPipeline) (query : str) (k : nat) : list Z :=
  List.map (fun h => Z.of_nat (hit_label h))
    (firstn k (scan (embedder p query) (xb (index p))))
  ++ repeat (-1)%Z
       (k - List.length
              (firstn k (scan (embedder p query) (xb (index p))))).

End WithModels.

(** A comparison that chains. *)
Definition transitive_order (NN : Numeric) : Prop :=
  forall a b c : num, nleb a b = true -> nleb b c = true -> nleb a c = true.

(** How often an entry of a given kind occurs in a log. *)
Definition count_events (p : event -> bool) (log : list event) : nat :=
  List.length (filter p log).

Definition is_index_add (ev : event) : bool :=
  match ev with EvIndexAdd _ => true | _ => false end.

Definition is_agent_run (ev : event) : bool :=
  match ev with EvAgentRun _ => true | _ => false end.

Definition is_print (ev : event) : bool :=
  match ev with EvPrint _ => true | _ => false end.

(** The two kinds of entries of the chat history. *)
Definition user_entry (input : str) : App.message :=
  App.mk_message (lit "user") input.

Definition assistant_entry (reply : str) : App.message :=
  App.mk_message (lit "assistant") reply.

(** On a day of 2024, whether the comparison of the script and the
    calendar agree about the day lying after the threshold. *)
Definition agrees_in_2024 (m dd : Z) : bool :=
  Bool.eqb (Agent.date_gt (Agent.mk_date 2024 m dd) Agent.target_date)
           (739049 <? Agent.toordinal (Agent.mk_date 2024 m dd))%Z.

(** The agent the script builds on a run at the instant [now]. *)
Definition the_agent {LC : Agent.LangChain} (now : Agent.datetime)
  : Agent.executor :=
  let llm := Agent.Ollama (Agent.llm_model (Agent.date_of now)) 0 in
  Agent.initialize_agent
    (Agent.load_tools [lit "llm-math"; lit "wikipedia"] llm) llm
    (Agent.mk_options Agent.CHAT_ZERO_SHOT_REACT_DESCRIPTION true true 3 60).

(** [block] is the documents of a context, in their order, with one
    space between neighbours and nowhere else. *)
Inductive space_joined : list str -> str -> Prop :=
| joined_none : space_joined [] []
| joined_one (doc : str) : space_joined [doc] doc
| joined_more (doc next : str) (rest : list str) (block : str) :
    space_joined (next :: rest) block ->
    space_joined (doc :: next :: rest) (doc ++ 32%N :: block).

(** The lines of a text, said without the reading machinery: a line
    ends at a line feed, at a carriage return, or at a carriage return
    followed by a line feed, and the terminator is not part of it; what
    follows the last terminator, if anything, is a line of its own. *)
Fixpoint plain_lines (s : str) : list str :=
  match s with
  | [] => []
  | c :: rest =>
      if (c =? LF)%N then [] :: plain_lines rest
      else if (c =? CR)%N then
        [] :: match rest with
              | d :: rest' =>
                  if (d =? LF)%N then plain_lines rest' else plain_lines rest
              | [] => []
              end
      else match plain_lines rest with
           | [] => [[c]]
           | l :: ls => (c :: l) :: ls
           end
  end.

(** A text without the white space at its beginning and at its end. *)
Fixpoint drop_leading (s : str) : str :=
  match s with
  | [] => []
  | c :: rest => if isspace c then drop_leading rest else s
  end.

Fixpoint drop_trailing (s : str) : str :=
  match s with
  | [] => []
  | c :: rest =>
      match drop_trailing rest with
      | [] => if isspace c then [] else [c]
      | kept => c :: kept
      end
  end.

Definition trim (s : str) : str := drop_trailing (drop_leading s).

(** A line as the code reads it is the stated line, with the line feed
    that ended it when there was one. *)
Definition same_line (read stated : str) : Prop :=
  read = stated ++ [LF] \/ read = stated.

(** The documents of a file as the specification words them: one per
    line that is neither empty nor white space only, the line trimmed, in
    the order of the lines. *)
Definition stated_documents (content : str) : list str :=
  List.map trim (filter not_blank (plain_lines content)).

End Spec.

(* ================================================================== *)
(** * Concrete instances, for running the embedding *)
(* ================================================================== *)

Module Sample.
Import Faiss Rag.

(** A small file: a padded line, an empty line, a line of blanks with a
    carriage return, and a last line without terminator. *)
Definition content : str :=
  lit "  The sky is blue. " ++ [LF] ++ [LF] ++ [32; 9; CR; LF]%N
  ++ lit "Cats are mammals.".

Definition fs : filesystem :=
  fun path =>
    if str_eqb path Loader.default_file_path then Some content else None.

(** Exact integer arithmetic as the component type. *)
Definition Zn : Numeric :=
  Build_Numeric 0%Z Z.add Z.sub Z.mul Z.leb Z.ltb (2 ^ 127)%Z.

(** A toy embedder: how often each letter of the word sky occurs. *)
Definition letters (s : str) : @vec Zn :=
  List.map (fun c => Z.of_nat (count_occ N.eq_dec s c)) (lit "sky").

(** A toy generator: one candidate, the prompt cut at the token cap. *)
Definition echo : Generator :=
  fun prompt max_new_tokens =>
    [mk_generation (firstn max_new_tokens prompt)].

(** A toy generator that proposes nothing. *)
Definition mute : Generator := fun _ _ => [].

Definition hub : @ModelHub Zn :=
  @Build_ModelHub Zn (fun _ => letters) (fun _ => echo).

Definition corpus : list str :=
  [lit "The sky is blue."; lit "Cats are mammals."; lit "Paris is in France."].

Definition query : str := lit "What color is the sky?".

Definition prompt : str :=
  lit "Context: The sky is blue." ++ [LF; LF]
  ++ lit "Question: What color is the sky?" ++ [LF] ++ lit "Answer:".

(** The pipeline built over the toy models from the three documents. *)
Definition pipeline : @RAGPipeline Zn :=
  @Spec.built Zn hub corpus None None.

(** What the toy generator answers to the query over the whole corpus:
    the first 64 code points of the prompt. *)
Definition reply : str :=
  lit "Context: The sky is blue. Cats are mammals. Paris is in France."
  ++ [LF].

(** Three agents: one that answers, one that finds no server, one that
    is interrupted from the keyboard while it runs. *)
Definition refused : exn := mk_exn ConnectionError (lit "Connection refused").

Definition interrupt : exn := mk_exn KeyboardInterrupt [].

Definition agent_with (behaviour : outcome str) : Agent.LangChain :=
  @Agent.Build_LangChain str str unit str
    (fun model _ => model) (fun names _ => names) (fun _ _ _ => tt)
    (fun _ _ => behaviour) (fun r => r).

Definition answering : Agent.LangChain :=
  agent_with (Ret (lit "Machine Learning")).
Definition offline : Agent.LangChain := agent_with (Raise refused).
Definition interrupted : Agent.LangChain := agent_with (Raise interrupt).

Definition noon (day : Agent.date) : Agent.datetime :=
  Agent.mk_datetime day 12 0 0 0.

Definition today : Agent.date := Agent.mk_date 2026 11 4.

End Sample.

(* ================================================================== *)
(** * Vocabulary of the further statements *)
(* ================================================================== *)

Module Coverage.
Import Faiss Rag App Spec.

(** A text without line terminator. *)
Definition single_line (s : str) : Prop := ~ In LF s /\ ~ In CR s.

(** The one-document-per-line format: every document followed by a line
    feed. *)
Definition unlines (documents : list str) : str :=
  flat_map (fun doc => doc ++ [LF]) documents.

(** What the page shows of a history: one chat message per entry. *)
Definition drawn (msgs : list message) : list event :=
  List.map (fun msg => EvChatWrite (role msg) (content msg)) msgs.

(** The log entries of building a pipeline: loading a model, encoding a
    batch of more than the query, adding to the index. *)
Definition is_build_event (ev : event) : bool :=
  match ev with
  | EvLoadModel _ | EvIndexAdd _ => true
  | _ => false
  end.

Section WithModels.
Context {NN : Numeric} {MH : ModelHub}.

(** What one run of the script adds to the history, given the pipeline
    of the session and what the input box returned. *)
Definition turn_entries (p : RAGPipeline) (user_input : option str)
  : list message :=
  match user_input with
  | None => []
  | Some input =>
      if truthy input then
        user_entry input
        :: match result_of (answer input p) with
           | Ret reply => [assistant_entry reply]
           | Raise _ => []
           end
      else []
  end.

(** The session after a sequence of runs of the script, one per value of
    the input box; a run that ends in an exception still leaves its
    session to the next. *)
Definition runs (fs : filesystem) (inputs : list (option str))
  (s : Session) : Session :=
  fold_left (fun s user_input => state_of (script fs user_input s)) inputs s.

End WithModels.
End Coverage.

Module Cases.
Import Faiss Rag.

(** A file system without any file, and one whose corpus file holds
    blank lines only. *)
Definition no_file : filesystem := fun _ => None.

Definition blank_file : filesystem :=
  fun path =>
    if str_eqb path Loader.default_file_path
    then Some ([32; LF; 9; CR; LF]%N)
    else None.

(** A corpus file written one document per line. *)
Definition two_documents : list str :=
  [lit "The sky is blue."; lit "Cats are mammals."].

Definition written : filesystem :=
  fun path =>
    if str_eqb path Loader.default_file_path
    then Some (Coverage.unlines two_documents)
    else None.

(** The sample pipeline with a generator that proposes nothing. *)
Definition mute_hub : @ModelHub Sample.Zn :=
  @Build_ModelHub Sample.Zn (fun _ => Sample.letters) (fun _ => Sample.mute).

Definition mute_pipeline : @RAGPipeline Sample.Zn :=
  @Spec.built Sample.Zn mute_hub Sample.corpus None None.

(** The prompt over the whole sample corpus. *)
Definition prompt_of_three : str :=
  lit "Context: The sky is blue. Cats are mammals. Paris is in France."
  ++ [LF; LF] ++ lit "Question: What color is the sky?" ++ [LF]
  ++ lit "Answer:".





(** A corpus of one document. *)
Definition lone_pipeline : @RAGPipeline Sample.Zn :=
  @Spec.built Sample.Zn Sample.hub [lit "The sky is blue."] None None.

End Cases.

(* ================================================================== *)
(** * Facts about the Python fragment *)
(* ================================================================== *)

Module PyFacts.
Import Spec.

Lemma lstrip_split (s : str) :
  exists p, s = p ++ lstrip s /\ blank p = true.
Proof.
  induction s as [|c r IH]; simpl.
  - exists []. auto.
  - destruct (isspace c) eqn:Ec.
    + destruct IH as [p [Hp Hb]]. exists (c :: p). split.
      * simpl. congruence.
      * simpl. now rewrite Ec.
    + exists []. auto.
Qed.

Lemma lstrip_head (s : str) (c : char) :
  hd_error (lstrip s) = Some c -> isspace c = false.
Proof.
  induction s as [|a r IH]; simpl; [discriminate|].
  destruct (isspace a) eqn:Ea; auto.
  simpl. intros H. injection H as <-. exact Ea.
Qed.

Lemma lstrip_nil_iff (s : str) : lstrip s = [] <-> blank s = true.
Proof.
  induction s as [|c r IH]; simpl; [tauto|].
  destruct (isspace c); simpl; [exact IH|].
  split; discriminate.
Qed.

Lemma blank_app (a b : str) : blank (a ++ b) = blank a && blank b.
Proof. apply forallb_app. Qed.

Lemma blank_rev (a : str) : blank (rev a) = blank a.
Proof.
  induction a as [|c r IH]; simpl; auto.
  rewrite blank_app, IH. simpl. rewrite andb_true_r. apply andb_comm.
Qed.

Lemma strip_nil_iff (s : str) : strip s = [] <-> blank s = true.
Proof.
  unfold strip, rstrip. split.
  - intros H. apply (f_equal (@rev char)) in H. rewrite rev_involutive in H.
    simpl in H. apply lstrip_nil_iff in H. rewrite blank_rev in H.
    destruct (lstrip_split s) as [p [Hs Hp]].
    destruct (lstrip s) as [|c t] eqn:E.
    + now apply lstrip_nil_iff.
    + assert (Hc : isspace c = false)
        by (apply (@lstrip_head s); rewrite E; reflexivity).
      simpl in H. rewrite Hc in H. discriminate.
  - intros H. apply lstrip_nil_iff in H. now rewrite H.
Qed.

Lemma truthy_strip (s : str) : truthy (strip s) = negb (blank s).
Proof.
  destruct (blank s) eqn:E.
  - apply strip_nil_iff in E. now rewrite E.
  - destruct (strip s) eqn:Es; [|reflexivity].
    apply strip_nil_iff in Es. congruence.
Qed.

Lemma hd_error_app_l (A : Type) (a b : list A) (x : A) :
  hd_error a = Some x -> hd_error (a ++ b) = Some x.
Proof. destruct a; simpl; [discriminate|auto]. Qed.

(** [strip] removes white space from the two ends only. *)
Lemma strip_trims (s : str) : blank s = false -> trims_to s (strip s).
Proof.
  intros Hb.
  destruct (lstrip_split s) as [p1 [Hs Hp1]].
  destruct (lstrip_split (rev (lstrip s))) as [q [Hr Hq]].
  assert (Hmid : lstrip s = strip s ++ rev q).
  { unfold strip, rstrip. rewrite <- rev_app_distr, <- Hr.
    now rewrite rev_involutive. }
  exists p1, (rev q). repeat split.
  - now rewrite <- Hmid.
  - exact Hp1.
  - now rewrite blank_rev.
  - intros H. apply strip_nil_iff in H. congruence.
  - intros c Hc. apply (@lstrip_head s). rewrite Hmid.
    now apply hd_error_app_l.
  - intros c. unfold strip, rstrip. rewrite rev_involutive.
    apply lstrip_head.
Qed.

(** The lines of a file are its translated text, cut into pieces. *)
Lemma concat_split_lines (s : str) : List.concat (split_lines s) = s.
Proof.
  induction s as [|c r IH]; simpl; auto.
  destruct (c =? LF)%N; simpl; [now rewrite IH|].
  destruct (split_lines r) as [|l ls]; simpl in *; subst; auto.
Qed.

Lemma list_comp_pure (S A B : Type) (f : A -> B) (xs : list A) (s : S) :
  list_comp (fun x => ret (f x)) xs s = (Ret (List.map f xs), s, []).
Proof.
  induction xs as [|x xs IH]; simpl; auto.
  unfold bind at 1. unfold ret at 1. unfold bind. rewrite IH. reflexivity.
Qed.

(** Indexing inside the bounds. *)
Lemma getitem_nonneg (A : Type) (l : list A) (i : nat) (x : A) :
  nth_error l i = Some x -> getitem l (Z.of_nat i) = Ret x.
Proof.
  intros H. unfold getitem.
  assert (Hi : i < List.length l) by (apply nth_error_Some; congruence).
  destruct (Z.of_nat i <? 0)%Z eqn:E1; [lia|].
  destruct ((Z.of_nat i <? 0) || (Z.of_nat (List.length l) <=? Z.of_nat i))%Z
    eqn:E2; [lia|].
  now rewrite Nat2Z.id, H.
Qed.

Lemma getitem_negative (A : Type) (l : list A) (i : Z) :
  (- Z.of_nat (List.length l) <= i < 0)%Z ->
  getitem l i = getitem l (i + Z.of_nat (List.length l)).
Proof.
  intros H. unfold getitem. cbv zeta.
  replace (i <? 0)%Z with true by (symmetry; apply Z.ltb_lt; lia).
  assert (E : (i + Z.of_nat (List.length l) <? 0)%Z = false)
    by (apply Z.ltb_ge; lia).
  cbv iota. rewrite E. cbv iota. rewrite E. reflexivity.
Qed.

End PyFacts.

(* ================================================================== *)
(** * loader.py: the documents of a file *)
(* ================================================================== *)

Module LoaderFacts.
Import Spec PyFacts.

Lemma filter_trims (ls : list str) :
  Forall2 trims_to (filter not_blank ls) (List.map strip (filter not_blank ls)).
Proof.
  induction ls as [|l ls IH]; simpl; [constructor|].
  destruct (not_blank l) eqn:E; simpl; auto.
  constructor; auto. apply strip_trims.
  unfold not_blank in E. now destruct (blank l).
Qed.

Example load_sample :
  result_of (Loader.load_news Sample.fs None tt)
  = Ret [lit "The sky is blue."; lit "Cats are mammals."].
Proof. vm_compute. reflexivity. Qed.

Example load_missing :
  result_of (Loader.load_news Sample.fs (Some (lit "nowhere.txt")) tt)
  = Raise (file_not_found (lit "nowhere.txt")).
Proof. vm_compute. reflexivity. Qed.

(** ** The code's reading of a file against the stated one *)

Lemma lstrip_drop_leading (s : str) : lstrip s = drop_leading s.
Proof.
  induction s as [|c r IH]; [reflexivity|]. simpl. now rewrite IH.
Qed.

Lemma lstrip_snoc (u : str) (c : char) :
  lstrip (u ++ [c])
  = match lstrip u with
    | [] => if isspace c then [] else [c]
    | kept => kept ++ [c]
    end.
Proof.
  induction u as [|a u IH]; [reflexivity|].
  cbn [app lstrip]. destruct (isspace a); [exact IH|reflexivity].
Qed.

Lemma rstrip_cons (c : char) (r : str) :
  rstrip (c :: r)
  = match rstrip r with
    | [] => if isspace c then [] else [c]
    | kept => c :: kept
    end.
Proof.
  unfold rstrip. cbn [rev]. rewrite lstrip_snoc.
  destruct (lstrip (rev r)) as [|x t].
  - cbn [rev]. now destruct (isspace c).
  - rewrite rev_app_distr. cbn [rev app].
    destruct (rev t ++ [x]) as [|y w] eqn:E; [|reflexivity].
    symmetry in E. now apply app_cons_not_nil in E.
Qed.

Lemma rstrip_drop_trailing (s : str) : rstrip s = drop_trailing s.
Proof.
  induction s as [|c r IH]; [reflexivity|].
  rewrite rstrip_cons, IH. reflexivity.
Qed.

Lemma strip_trim (s : str) : strip s = trim s.
Proof.
  unfold strip, trim. now rewrite rstrip_drop_trailing, lstrip_drop_leading.
Qed.

(** White space at the very end of a text does not show after
    stripping. *)
Lemma strip_snoc_space (s : str) (c : char) :
  isspace c = true -> strip (s ++ [c]) = strip s.
Proof.
  intros Hc. unfold strip. rewrite lstrip_snoc, Hc.
  destruct (lstrip s) as [|x t]; [reflexivity|].
  unfold rstrip. rewrite rev_app_distr. cbn [rev app lstrip].
  now rewrite Hc.
Qed.

Lemma lines_agree_upto (n : nat) (s : str) :
  List.length s <= n -> Forall2 same_line (file_lines s) (plain_lines s).
Proof.
  unfold file_lines. revert s. induction n as [|n IH]; intros s Hlen.
  - destruct s; [constructor|simpl in Hlen; lia].
  - destruct s as [|c rest]; [constructor|]. simpl in Hlen.
    cbn [universal_newlines plain_lines].
    destruct (c =? CR)%N eqn:Ecr.
    + apply N.eqb_eq in Ecr. subst c. change (CR =? LF)%N with false.
      cbv iota.
      destruct rest as [|d rest'].
      * cbn. constructor; [now left|constructor].
      * simpl in Hlen. destruct (d =? LF)%N eqn:Ed.
        -- cbn [split_lines]. change (LF =? LF)%N with true. cbv iota.
           constructor; [now left|]. apply IH. lia.
        -- cbn [split_lines]. change (LF =? LF)%N with true. cbv iota.
           constructor; [now left|]. apply IH. simpl. lia.
    + cbn [split_lines]. destruct (c =? LF)%N eqn:Elf.
      * apply N.eqb_eq in Elf. subst c.
        constructor; [now left|]. apply IH. lia.
      * specialize (IH rest ltac:(lia)).
        destruct IH as [|read stated reads stateds Hline Hrest].
        -- constructor; [now right|constructor].
        -- constructor; [|exact Hrest].
           destruct Hline as [-> | ->]; [now left|now right].
Qed.

Lemma lines_agree (s : str) :
  Forall2 same_line (file_lines s) (plain_lines s).
Proof. now apply (lines_agree_upto (n := List.length s)). Qed.

Lemma same_line_document (read stated : str) :
  same_line read stated ->
  not_blank read = not_blank stated /\ strip read = trim stated.
Proof.
  intros [-> | ->].
  - split.
    + unfold not_blank. rewrite blank_app. cbn. now rewrite andb_true_r.
    + rewrite strip_snoc_space by reflexivity. apply strip_trim.
  - split; [reflexivity|apply strip_trim].
Qed.

Lemma documents_as_stated (content : str) :
  documents_of content = stated_documents content.
Proof.
  unfold documents_of, stated_documents.
  induction (lines_agree content) as [|read stated reads stateds Hline _ IH];
    [reflexivity|].
  apply same_line_document in Hline as [Hnb Hstrip].
  cbn [filter]. rewrite Hnb. destruct (not_blank stated); [|exact IH].
  cbn [List.map]. now rewrite Hstrip, IH.
Qed.

Example plain_lines_sample :
  plain_lines Sample.content
  = [lit "  The sky is blue. "; []; [32; 9]%N; lit "Cats are mammals."].
Proof. reflexivity. Qed.

(** C8.  For every file, [load_news] returns one document per line that
    is not blank (neither empty nor white space only), in the order of the
    lines; each document is its line with the white space at the two ends
    removed, and blank lines contribute nothing.  The lines are those of
    the text, ended by a line feed, a carriage return or both.  The call
    changes no state and logs nothing. *)
Theorem load_news_documents (S : Type) (fs : filesystem)
  (file_path : option str) (content : str) (s : S) :
  fs (default_arg Loader.default_file_path file_path) = Some content ->
  Loader.load_news fs file_path s
  = (Ret (stated_documents content), s, [])
  /\ Forall2 trims_to (filter not_blank (plain_lines content))
       (stated_documents content).
Proof.
  intros Hfs. split.
  - unfold Loader.load_news, open_r. cbv zeta. rewrite Hfs.
    unfold bind at 1, lift at 1. unfold bind at 1.
    rewrite list_comp_pure.
    rewrite (filter_ext (fun line => truthy (strip line)) not_blank)
      by (intros l; apply truthy_strip).
    fold (documents_of content). now rewrite documents_as_stated.
  - unfold stated_documents.
    rewrite (map_ext trim strip) by (intros l; symmetry; apply strip_trim).
    apply filter_trims.
Qed.

Lemma load_news_documents_witness :
  Sample.fs Loader.default_file_path = Some Sample.content
  /\ Loader.load_news Sample.fs None tt
     = (Ret [lit "The sky is blue."; lit "Cats are mammals."], tt, []).
Proof.
  split; [reflexivity|].
  exact (proj1 (@load_news_documents unit Sample.fs None Sample.content tt
                  eq_refl)).
Defined.

End LoaderFacts.

(* ================================================================== *)
(** * The flat index: what a search returns *)
(* ================================================================== *)

Module FaissFacts.
Import Faiss Spec.
Section WithNumeric.
Context {NN : Numeric}.

Lemma insert_hit_length (h : hit) (l : list hit) :
  List.length (insert_hit h l) = S (List.length l).
Proof.
  induction l as [|a l IH]; simpl; auto.
  destruct (nleb (hit_dist a) (hit_dist h)); simpl; auto.
Qed.

Lemma insert_hit_In (h x : hit) (l : list hit) :
  In x (insert_hit h l) <-> x = h \/ In x l.
Proof.
  induction l as [|a l IH]; simpl.
  - intuition.
  - destruct (nleb (hit_dist a) (hit_dist h)); simpl; rewrite ?IH; intuition.
Qed.

(** Insertion keeps the order when the newcomer compares with every
    candidate already there. *)
Lemma insert_hit_ascending (h : hit) (l : list hit) :
  (forall a, In a l ->
     nleb (hit_dist h) (hit_dist a) = true
     \/ nleb (hit_dist a) (hit_dist h) = true) ->
  ascending l -> ascending (insert_hit h l).
Proof.
  unfold ascending. induction l as [|a l IH]; simpl; intros Hcmp Hl.
  - repeat constructor.
  - apply Sorted_inv in Hl as [Hs Hh].
    destruct (nleb (hit_dist a) (hit_dist h)) eqn:E.
    + constructor; [apply IH; auto|].
      destruct l as [|b l]; simpl; [now constructor|].
      destruct (nleb (hit_dist b) (hit_dist h)); constructor; auto.
      now inversion Hh.
    + constructor; [now constructor|].
      constructor. destruct (Hcmp a (or_introl eq_refl)); congruence.
Qed.

Lemma insert_hit_perm (h : hit) (l : list hit) :
  Permutation (insert_hit h l) (h :: l).
Proof.
  induction l as [|a l IH]; simpl; [reflexivity|].
  destruct (nleb (hit_dist a) (hit_dist h)); [|reflexivity].
  rewrite IH. apply perm_swap.
Qed.

Section Scan.
Variable q : vec.

Lemma fold_step_length_le (items : list (nat * vec)) (acc : list hit) :
  List.length (fold_left (scan_step q) items acc)
  <= List.length acc + List.length items.
Proof.
  revert acc. induction items as [|jy items IH]; intros acc; simpl; [lia|].
  etransitivity; [apply IH|]. unfold scan_step. cbv zeta.
  destruct (admitted _); [rewrite insert_hit_length|]; lia.
Qed.

Lemma fold_step_length_all (items : list (nat * vec)) (acc : list hit) :
  Forall (fun jy => nltb (fvec_L2sqr q (snd jy)) nmax = true) items ->
  List.length (fold_left (scan_step q) items acc)
  = List.length acc + List.length items.
Proof.
  intros Hall. revert acc.
  induction Hall as [|jy items Hjy _ IH]; intros acc; simpl; [lia|].
  rewrite IH. unfold scan_step, admitted. cbn [hit_dist]. rewrite Hjy.
  rewrite insert_hit_length. lia.
Qed.

Lemma fold_step_In (items : list (nat * vec)) (acc : list hit) (x : hit) :
  In x (fold_left (scan_step q) items acc) ->
  In x acc
  \/ exists jy, In jy items /\ x = mk_hit (fvec_L2sqr q (snd jy)) (fst jy).
Proof.
  revert acc. induction items as [|jy items IH]; intros acc; simpl; auto.
  intros H. apply IH in H as [H | [jy' [Hin Hx]]].
  - unfold scan_step in H. cbv zeta in H.
    destruct (admitted _); [|auto].
    apply insert_hit_In in H as [H | H]; eauto.
  - eauto.
Qed.

Lemma fold_step_admitted (items : list (nat * vec)) (acc : list hit) :
  Forall (fun h => admitted h = true) acc ->
  Forall (fun h => admitted h = true) (fold_left (scan_step q) items acc).
Proof.
  revert acc. induction items as [|jy items IH]; intros acc Hacc; simpl; auto.
  apply IH. unfold scan_step. cbv zeta.
  destruct (admitted _) eqn:E; [|exact Hacc].
  apply Forall_forall. intros x Hx. apply insert_hit_In in Hx as [-> | Hx];
    [exact E|]. rewrite Forall_forall in Hacc. now apply Hacc.
Qed.

Lemma fold_step_ascending (total : total_below_max NN)
  (items : list (nat * vec)) (acc : list hit) :
  Forall (fun h => admitted h = true) acc ->
  ascending acc -> ascending (fold_left (scan_step q) items acc).
Proof.
  revert acc. induction items as [|jy items IH]; intros acc Hadm Hacc;
    simpl; auto.
  apply IH.
  - apply (fold_step_admitted [jy]). exact Hadm.
  - unfold scan_step. cbv zeta. destruct (admitted _) eqn:E; [|exact Hacc].
    apply insert_hit_ascending; [|exact Hacc].
    intros a Ha. rewrite Forall_forall in Hadm.
    apply total; [exact E|now apply Hadm].
Qed.

Lemma fold_step_perm (items : list (nat * vec)) (acc : list hit) :
  Permutation (fold_left (scan_step q) items acc)
    (filter admitted
       (List.map (fun jy => mk_hit (fvec_L2sqr q (snd jy)) (fst jy)) items)
     ++ acc).
Proof.
  revert acc. induction items as [|jy items IH]; intros acc; simpl.
  - reflexivity.
  - rewrite IH. unfold scan_step. cbv zeta.
    destruct (admitted _); [|reflexivity].
    rewrite insert_hit_perm. symmetry. apply Permutation_middle.
Qed.

End Scan.

Lemma In_enumerate (A : Type) (l : list A) (a j : nat) (y : A) :
  In (j, y) (combine (seq a (List.length l)) l) ->
  a <= j /\ nth_error l (j - a) = Some y.
Proof.
  revert a. induction l as [|x l IH]; intros a; simpl; [tauto|].
  intros [H | H].
  - injection H as <- <-. rewrite Nat.sub_diag. auto.
  - apply IH in H as [Hle Hn]. split; [lia|].
    replace (j - a) with (S (j - S a)) by lia. exact Hn.
Qed.

(** The scan keeps at most one candidate per stored vector, and exactly
    one when every distance is below the largest value. *)
Lemma scan_length_le (q : vec) (base : matrix) :
  List.length (scan q base) <= List.length base.
Proof.
  unfold scan. etransitivity; [apply fold_step_length_le|]. simpl.
  rewrite length_combine, length_seq. lia.
Qed.

Lemma scan_length (q : vec) (base : matrix) :
  Forall (fun y => nltb (fvec_L2sqr q y) nmax = true) base ->
  List.length (scan q base) = List.length base.
Proof.
  intros Hall. unfold scan. rewrite fold_step_length_all.
  - simpl. rewrite length_combine, length_seq. lia.
  - apply Forall_forall. intros [j y] Hin. cbn [snd].
    rewrite Forall_forall in Hall. apply Hall.
    eapply in_combine_r. exact Hin.
Qed.

(** Every candidate carries the label of a stored vector and the
    distance from the query to that vector, a distance below the largest
    value. *)
Lemma scan_In (q : vec) (base : matrix) (x : hit) :
  In x (scan q base) ->
  exists y, nth_error base (hit_label x) = Some y
            /\ hit_dist x = fvec_L2sqr q y.
Proof.
  unfold scan. intros H. apply fold_step_In in H as [[] | [[j y] [Hin ->]]].
  apply In_enumerate in Hin as [_ Hn]. rewrite Nat.sub_0_r in Hn.
  exists y. auto.
Qed.

Lemma scan_admitted (q : vec) (base : matrix) :
  Forall (fun h => admitted h = true) (scan q base).
Proof. unfold scan. apply fold_step_admitted. constructor. Qed.

Lemma scan_ascending (total : total_below_max NN) (q : vec) (base : matrix) :
  ascending (scan q base).
Proof.
  unfold scan. apply fold_step_ascending; [exact total| |]; constructor.
Qed.

Lemma map_fst_enumerate (A : Type) (l : list A) (a : nat) :
  List.map fst (combine (seq a (List.length l)) l) = seq a (List.length l).
Proof.
  revert a. induction l as [|x l IH]; intros a; simpl; [reflexivity|].
  now rewrite IH.
Qed.

Lemma filter_all (A : Type) (f : A -> bool) (l : list A) :
  Forall (fun x => f x = true) l -> filter f l = l.
Proof.
  induction 1 as [|x l Hx _ IH]; simpl; [reflexivity|].
  now rewrite Hx, IH.
Qed.

(** When every distance is below the largest value the scan drops
    nothing and invents nothing: its candidates are the stored vectors,
    each once. *)
Lemma scan_labels (q : vec) (base : matrix) :
  Forall (fun y => nltb (fvec_L2sqr q y) nmax = true) base ->
  Permutation (List.map hit_label (scan q base)) (seq 0 (List.length base)).
Proof.
  intros Hall. unfold scan. rewrite fold_step_perm, app_nil_r.
  rewrite filter_all.
  - rewrite map_map. cbn [hit_label]. now rewrite map_fst_enumerate.
  - apply Forall_forall. intros h Hh.
    apply in_map_iff in Hh as [[j y] [<- Hin]].
    unfold admitted. cbn [hit_dist snd].
    rewrite Forall_forall in Hall. apply Hall.
    eapply in_combine_r. exact Hin.
Qed.

(** With a comparison that is total below the largest value and chains,
    the first [k] candidates are the [k] nearest: none of the others is
    strictly closer. *)
Lemma scan_nearest (total : total_below_max NN) (trans : transitive_order NN)
  (q : vec) (base : matrix) (k : nat) (near far : hit) :
  In near (firstn k (scan q base)) -> In far (skipn k (scan q base)) ->
  nleb (hit_dist near) (hit_dist far) = true.
Proof.
  pose proof (scan_ascending total q base) as Hs.
  apply Sorted_StronglySorted in Hs;
    [|intros a b c Hab Hbc; exact (trans _ _ _ Hab Hbc)].
  revert k. induction Hs as [|a l Hl IH Ha]; intros k Hn Hf.
  - rewrite firstn_nil in Hn. contradiction.
  - destruct k as [|k]; [contradiction|]. cbn in Hn, Hf.
    destruct Hn as [<- | Hn].
    + rewrite Forall_forall in Ha. apply Ha.
      revert Hf. clear. revert l. induction k as [|k IH]; intros [|b l]; simpl; auto.
    + now apply (IH k).
Qed.


Lemma In_firstn (A : Type) (k : nat) (l : list A) (x : A) :
  In x (firstn k l) -> In x l.
Proof.
  revert l. induction k as [|k IH]; intros [|a l]; simpl; try tauto.
  intros [H | H]; auto.
Qed.

(** A search with no result asked for is refused; any other returns
    one label row per query: the labels of the [k] best candidates, then
    [-1] in every slot left. *)
Lemma search_zero (ix : IndexFlatL2) (x : matrix) :
  search ix x 0 = Raise assertion_error.
Proof. reflexivity. Qed.

Lemma search_labels (ix : IndexFlatL2) (q : vec) (k : nat) :
  1 <= k ->
  exists D,
    search ix [q] k
    = Ret (D,
           [List.map (fun h => Z.of_nat (hit_label h))
              (firstn k (scan q (xb ix)))
            ++ repeat (-1)%Z
                 (k - List.length (firstn k (scan q (xb ix))))]).
Proof.
  intros Hk. unfold search.
  destruct k as [|k]; [lia|]. cbn [Nat.eqb].
  eexists. reflexivity.
Qed.

End WithNumeric.
End FaissFacts.

(* ================================================================== *)
(** * rag_pipeline.py: construction and retrieval *)
(* ================================================================== *)

Module RagFacts.
Import Faiss Rag Spec PyFacts FaissFacts.
Section WithModels.
Context {NN : Numeric} {MH : ModelHub}.

Lemma init_nonempty (S : Type) (s : S) (corpus : list str)
  (em gm : option str) :
  corpus <> [] ->
  init corpus em gm s
  = (Ret (built corpus em gm), s,
     [EvLoadModel (default_arg default_embedding_model em);
      EvEncode corpus;
      EvIndexAdd (List.length corpus);
      EvLoadModel (default_arg default_gen_model gm)]).
Proof.
  destruct corpus as [|doc rest]; [congruence|]. intros _.
  unfold init, built. cbn. now rewrite length_map.
Qed.

Lemma init_empty (S : Type) (s : S) (em gm : option str) :
  result_of (init [] em gm s) = Raise tuple_index_error.
Proof. reflexivity. Qed.

Lemma init_inv (S : Type) (s s' : S) (corpus : list str)
  (em gm : option str) (p : RAGPipeline) (log : list event) :
  init corpus em gm s = (Ret p, s', log) ->
  corpus <> [] /\ p = built corpus em gm /\ s' = s.
Proof.
  destruct corpus as [|doc rest].
  - cbn. discriminate.
  - intros H. rewrite init_nonempty in H by discriminate.
    injection H as <- <- _. repeat split. discriminate.
Qed.

(** Indexing a list inside its bounds, from either end. *)
Lemma getitem_resolve (corpus : list str) (i : Z) :
  (- Z.of_nat (List.length corpus) <= i < Z.of_nat (List.length corpus))%Z ->
  getitem corpus i = Ret (resolve corpus i) /\ In (resolve corpus i) corpus.
Proof.
  intros H. unfold getitem, resolve. cbv zeta.
  set (j := (if (i <? 0)%Z then (i + Z.of_nat (List.length corpus))%Z else i)).
  assert (Hj : (0 <= j < Z.of_nat (List.length corpus))%Z)
    by (subst j; destruct (i <? 0)%Z eqn:E; lia).
  assert (Hn : Z.to_nat j < List.length corpus) by lia.
  replace ((j <? 0)%Z || (Z.of_nat (List.length corpus) <=? j)%Z) with false
    by (symmetry; apply orb_false_iff; split;
        [apply Z.ltb_ge | apply Z.leb_gt]; lia).
  rewrite (nth_error_nth' corpus [] Hn). split; [reflexivity|].
  now apply nth_In.
Qed.

(** The comprehension of [retrieve] reads the documents and nothing
    else: it leaves the object as it found it and logs nothing. *)
Lemma comprehension_run (I0 : list Z) (p : RAGPipeline) :
  list_comp (fun i => ds <- gets docs ;; lift (getitem ds i)) I0 p
  = (pick (docs p) I0, p, []).
Proof.
  induction I0 as [|i I0 IH]; simpl; [reflexivity|].
  unfold bind at 1. unfold bind at 1, gets at 1, lift at 1.
  destruct (getitem (docs p) i) as [doc|e]; simpl; [|reflexivity].
  unfold bind at 1. rewrite IH.
  destruct (pick (docs p) I0); reflexivity.
Qed.

Lemma pick_resolve (corpus : list str) (I0 : list Z) :
  Forall (fun i => - Z.of_nat (List.length corpus) <= i
                   < Z.of_nat (List.length corpus))%Z I0 ->
  pick corpus I0 = Ret (List.map (resolve corpus) I0).
Proof.
  induction 1 as [|i I0 Hi _ IH]; simpl; [reflexivity|].
  destruct (getitem_resolve _ Hi) as [-> _]. now rewrite IH.
Qed.

(** [retrieve], step by step: one encoding of the query, one search,
    refused when no result is asked for, then the comprehension over the
    label row. *)
Lemma retrieve_unfold (query : str) (top_k : option nat) (p : RAGPipeline) :
  retrieve query top_k p
  = (match default_arg default_top_k top_k with
     | 0 => Raise assertion_error
     | S _ =>
         pick (docs p) (label_row p query (default_arg default_top_k top_k))
     end,
     p,
     [EvEncode [query]; EvIndexSearch 1 (default_arg default_top_k top_k)]).
Proof.
  unfold retrieve, encode, index_search. cbv zeta.
  unfold bind at 1, gets at 1. unfold bind at 1. unfold bind at 1.
  unfold emit at 1, ret at 1.
  unfold bind at 1, gets at 1. unfold bind at 1. unfold bind at 1.
  unfold emit at 1, lift at 1.
  change (List.map (embedder p) [query]) with [embedder p query].
  destruct (default_arg default_top_k top_k) as [|k] eqn:Ek.
  - reflexivity.
  - destruct (@search_labels NN (index p) (embedder p query) (S k)
                ltac:(lia)) as [D ->].
    fold (label_row p query (S k)). cbn [snd].
    change (getitem [label_row p query (S k)] 0)
      with (Ret (label_row p query (S k))).
    unfold bind at 1, lift at 1. cbv iota beta.
    rewrite comprehension_run. reflexivity.
Qed.


Lemma nth_pred_last (A : Type) (l : list A) (dflt : A) :
  l <> [] -> nth (pred (List.length l)) l dflt = last l dflt.
Proof.
  induction l as [|a l IH]; [congruence|]. intros _.
  destruct l as [|b l]; [reflexivity|].
  specialize (IH ltac:(discriminate)). simpl in *. exact IH.
Qed.

Lemma resolve_label (corpus : list str) (j : nat) :
  resolve corpus (Z.of_nat j) = nth j corpus [].
Proof.
  unfold resolve.
  replace (Z.of_nat j <? 0)%Z with false by (symmetry; apply Z.ltb_ge; lia).
  now rewrite Nat2Z.id.
Qed.

Lemma resolve_sentinel (corpus : list str) :
  corpus <> [] -> resolve corpus (-1) = last corpus [].
Proof.
  intros H. unfold resolve. change (-1 <? 0)%Z with true. cbv iota.
  replace (Z.to_nat (-1 + Z.of_nat (List.length corpus)))
    with (pred (List.length corpus)) by lia.
  now apply nth_pred_last.
Qed.

(** A candidate of a scan over the embedded corpus names a document of
    the corpus and carries the distance from the query to it. *)
Lemma candidate_document (e : Embedder) (corpus : list str) (query : str)
  (h : hit) :
  In h (scan (e query) (List.map e corpus)) ->
  hit_label h < List.length corpus
  /\ In (nth (hit_label h) corpus []) corpus
  /\ hit_dist h = doc_distance e query (nth (hit_label h) corpus []).
Proof.
  intros H. apply scan_In in H as [y [Hn Hd]].
  rewrite nth_error_map in Hn.
  destruct (nth_error corpus (hit_label h)) as [doc|] eqn:E; [|discriminate].
  injection Hn as <-.
  assert (Hlt : hit_label h < List.length corpus)
    by (apply nth_error_Some; congruence).
  rewrite (nth_error_nth' corpus [] Hlt) in E. injection E as E.
  rewrite E. repeat split; auto. rewrite <- E. now apply nth_In.
Qed.

Lemma Zn_total : total_below_max Sample.Zn.
Proof.
  intros a b _ _. simpl. destruct (Z.leb_spec a b); [now left|right].
  apply Z.leb_le. lia.
Qed.

(** When every document is within range of the query, so is every row
    of the embedding matrix. *)
Lemma rows_within_range (e : Embedder) (corpus : list str) (query : str) :
  Forall (within_range e query) corpus ->
  Forall (fun y => nltb (fvec_L2sqr (e query) y) nmax = true)
    (List.map e corpus).
Proof.
  intros H. apply Forall_forall. intros y Hy.
  apply in_map_iff in Hy as [doc [<- Hdoc]].
  rewrite Forall_forall in H. now apply H.
Qed.

(** The labels of a row over a built pipeline are inside the bounds of
    the corpus, the padding included, and there are as many as asked
    for. *)
Lemma label_row_in_range (corpus : list str) (em gm : option str)
  (query : str) (k : nat) :
  corpus <> [] ->
  Forall (fun i => - Z.of_nat (List.length corpus) <= i
                   < Z.of_nat (List.length corpus))%Z
    (label_row (built corpus em gm) query k).
Proof.
  intros Hne.
  assert (Hn : 0 < List.length corpus)
    by (destruct corpus; simpl; [congruence|lia]).
  unfold label_row, built. cbn [embedder index xb].
  apply Forall_app. split; apply Forall_forall; intros i Hi.
  - apply in_map_iff in Hi as [h [<- Hh]]. apply In_firstn in Hh.
    apply candidate_document in Hh as [Hlt _]. lia.
  - apply repeat_spec in Hi. subst i. lia.
Qed.

Lemma label_row_length (p : RAGPipeline) (query : str) (k : nat) :
  List.length (label_row p query k) = k.
Proof.
  unfold label_row.
  rewrite length_app, length_map, repeat_length, length_firstn. lia.
Qed.

Example retrieve_sky :
  result_of (retrieve Sample.query (Some 1) Sample.pipeline)
  = Ret [lit "The sky is blue."].
Proof. vm_compute. reflexivity. Qed.

Example retrieve_default :
  retrieve Sample.query None Sample.pipeline
  = (Ret [lit "The sky is blue."; lit "Cats are mammals.";
          lit "Paris is in France."],
     Sample.pipeline,
     [EvEncode [Sample.query]; EvIndexSearch 1 3]).
Proof. vm_compute. reflexivity. Qed.


(** [generate], step by step: one call of the generator on the prompt,
    then the text of the first entry of what it returned. *)
Lemma generate_unfold (query : str) (context : list str) (p : RAGPipeline) :
  generate query context p
  = (match generator p (prompt_of query context) 64 with
     | first :: _ => Ret (generated_text first)
     | [] => Raise index_error
     end,
     p, [EvGenerate (prompt_of query context) 64]).
Proof.
  unfold generate, call_generator. cbv zeta.
  unfold bind at 1, gets at 1. unfold bind at 1. unfold bind at 1.
  unfold emit at 1, ret at 1. unfold bind at 1, lift at 1.
  destruct (generator p (prompt_of query context) 64) as [|first others];
    reflexivity.
Qed.

Lemma answer_unfold (query : str) (p : RAGPipeline) :
  answer query p
  = match pick (docs p) (label_row p query default_top_k) with
    | Ret context =>
        (match generator p (prompt_of query context) 64 with
         | first :: _ => Ret (generated_text first)
         | [] => Raise index_error
         end,
         p,
         [EvEncode [query]; EvIndexSearch 1 default_top_k;
          EvGenerate (prompt_of query context) 64])
    | Raise e => (Raise e, p, [EvEncode [query]; EvIndexSearch 1 default_top_k])
    end.
Proof.
  unfold answer, bind. rewrite retrieve_unfold. cbn [default_arg].
  change (match default_top_k with
          | 0 => Raise assertion_error
          | S _ => pick (docs p) (label_row p query default_top_k)
          end)
    with (pick (docs p) (label_row p query default_top_k)).
  destruct (pick (docs p) (label_row p query default_top_k)) as [context|e];
    [|reflexivity].
  rewrite generate_unfold. reflexivity.
Qed.

(** The scenario of the specification: one retrieved document. *)
Example prompt_sky :
  prompt_of Sample.query [lit "The sky is blue."]
  = lit "Context: The sky is blue." ++ [LF; LF]
    ++ lit "Question: What color is the sky?" ++ [LF] ++ lit "Answer:".
Proof. reflexivity. Qed.

Example generate_mute :
  result_of (generate Sample.query []
               (mk_pipeline (NN := Sample.Zn) [] Sample.letters [] (mk_index 0 [])
                  Sample.mute))
  = Raise index_error.
Proof. reflexivity. Qed.

(** What [join] builds with a space as separator is the documents in
    their order with one space between neighbours. *)
Lemma join_space_joined (context : list str) :
  space_joined context (join (lit " ") context).
Proof.
  induction context as [|doc context IH]; [constructor|].
  destruct context as [|next rest]; [constructor|].
  change (join (lit " ") (doc :: next :: rest))
    with (doc ++ 32%N :: join (lit " ") (next :: rest)).
  now constructor.
Qed.

Lemma space_joined_unique (context : list str) (block block' : str) :
  space_joined context block -> space_joined context block' -> block = block'.
Proof.
  intros H. revert block'. induction H; intros block' H'; inversion H'; subst;
    try reflexivity.
  f_equal. f_equal. now apply IHspace_joined.
Qed.

(** C2.  For every query and every list of retrieved documents,
    [generate] builds the prompt "Context: " ++ block ++ "\n\nQuestion: "
    ++ the query ++ "\nAnswer:", where block is the documents in the order
    given with a single space between neighbours, calls the generator
    once, on that prompt with a cap of 64 new tokens, and returns the text
    of the first candidate the call produced, unchanged; the pipeline
    object is left as it was. *)
Theorem generate_prompt_cap_first (query : str) (context : list str)
  (block : str) (p : RAGPipeline) (first : generation)
  (others : list generation) :
  space_joined context block ->
  let prompt :=
    lit "Context: " ++ block ++ [LF; LF]
    ++ lit "Question: " ++ query ++ [LF] ++ lit "Answer:" in
  generator p prompt 64 = first :: others ->
  generate query context p
  = (Ret (generated_text first), p, [EvGenerate prompt 64]).
Proof.
  intros Hblock prompt Hgen. rewrite generate_unfold.
  assert (Hprompt : prompt_of query context = prompt).
  { unfold prompt_of, prompt.
    now rewrite (space_joined_unique (join_space_joined context) Hblock). }
  now rewrite Hprompt, Hgen.
Qed.

(** The three methods leave the object as they found it, and none of
    them adds to the index. *)
Lemma retrieve_frame (query : str) (top_k : option nat) (p : RAGPipeline) :
  state_of (retrieve query top_k p) = p
  /\ count_events is_index_add (log_of (retrieve query top_k p)) = 0.
Proof. rewrite retrieve_unfold. split; reflexivity. Qed.

Lemma generate_frame (query : str) (context : list str) (p : RAGPipeline) :
  state_of (generate query context p) = p
  /\ count_events is_index_add (log_of (generate query context p)) = 0.
Proof. rewrite generate_unfold. split; reflexivity. Qed.

Lemma answer_frame (query : str) (p : RAGPipeline) :
  state_of (answer query p) = p
  /\ count_events is_index_add (log_of (answer query p)) = 0.
Proof.
  rewrite answer_unfold.
  destruct (pick (docs p) (label_row p query default_top_k));
    split; reflexivity.
Qed.

(** C6.  After construction the embedding matrix has one row per
    document of the corpus, row [i] being the embedding of document [i];
    the index holds exactly these rows and was added to once, in the
    constructor; and [retrieve], [generate] and [answer] leave the
    documents, the embedding matrix and the index unchanged and add
    nothing to the index. *)
Theorem pipeline_built_once_never_mutated (S : Type) (s s' : S)
  (corpus : list str) (em gm : option str) (p : RAGPipeline)
  (log : list event) :
  init corpus em gm s = (Ret p, s', log) ->
  docs p = corpus
  /\ List.length (embeddings p) = List.length corpus
  /\ (forall i doc, nth_error corpus i = Some doc ->
        nth_error (embeddings p) i = Some (embedder p doc))
  /\ xb (index p) = embeddings p
  /\ ntotal (index p) = List.length corpus
  /\ count_events is_index_add log = 1
  /\ (forall query top_k,
        state_of (retrieve query top_k p) = p
        /\ count_events is_index_add (log_of (retrieve query top_k p)) = 0)
  /\ (forall query context,
        state_of (generate query context p) = p
        /\ count_events is_index_add (log_of (generate query context p)) = 0)
  /\ (forall query,
        state_of (answer query p) = p
        /\ count_events is_index_add (log_of (answer query p)) = 0).
Proof.
  intros Hinit. pose proof (init_inv _ _ _ _ Hinit) as [Hne [-> _]].
  rewrite init_nonempty in Hinit by exact Hne.
  injection Hinit as _ <-.
  repeat split.
  - cbn [built embeddings]. apply length_map.
  - intros i doc Hi. cbn [built embeddings embedder].
    rewrite nth_error_map, Hi. reflexivity.
  - unfold ntotal. cbn [built index xb]. apply length_map.
  - apply retrieve_frame.
  - apply retrieve_frame.
  - apply generate_frame.
  - apply generate_frame.
  - apply answer_frame.
  - apply answer_frame.
Qed.

(** C7.  Retrieval is deterministic: calling [retrieve] again with the
    same query and the same result count, directly or after any other
    call of [retrieve] or [answer], returns the same outcome; and two
    pipelines built from the same corpus with the same embedding model
    retrieve the same documents. *)
Theorem retrieve_deterministic (query : str) (top_k : option nat) :
  (forall p,
     result_of (retrieve query top_k (state_of (retrieve query top_k p)))
     = result_of (retrieve query top_k p))
  /\ (forall p query' top_k',
        result_of (retrieve query top_k (state_of (retrieve query' top_k' p)))
        = result_of (retrieve query top_k p))
  /\ (forall p query',
        result_of (retrieve query top_k (state_of (answer query' p)))
        = result_of (retrieve query top_k p))
  /\ (forall corpus em gm gm',
        result_of (retrieve query top_k (built corpus em gm))
        = result_of (retrieve query top_k (built corpus em gm'))).
Proof.
  repeat split; intros.
  - now destruct (retrieve_frame query top_k p) as [-> _].
  - now destruct (retrieve_frame query' top_k' p) as [-> _].
  - now destruct (answer_frame query' p) as [-> _].
  - rewrite !retrieve_unfold. reflexivity.
Qed.

(** C10.  [retrieve] indexes the documents with every label of the row
    the search returned, as the label comes.  A label [i] with
    [-n <= i < n] over a corpus of [n] documents selects a document and
    raises nothing; when [k] exceeds [n] the row ends in [k - n] labels
    [-1], and each of them yields the last document of the corpus, so
    that the call returns [k] documents and no error. *)
Theorem retrieve_unguarded_indexing (S : Type) (s s' : S)
  (corpus : list str) (em gm : option str) (p : RAGPipeline)
  (log : list event) (query : str) (k : nat) :
  init corpus em gm s = (Ret p, s', log) ->
  1 <= k ->
  let n := List.length corpus in
  exists D I0,
    search (index p) [embedder p query] k = Ret (D, [I0])
    /\ result_of (retrieve query (Some k) p) = pick corpus I0
    /\ (forall i, (- Z.of_nat n <= i < Z.of_nat n)%Z ->
          exists doc, getitem corpus i = Ret doc /\ In doc corpus)
    /\ getitem corpus (-1) = Ret (last corpus [])
    /\ (n < k ->
        exists labels nearest,
          I0 = labels ++ repeat (-1)%Z (k - n)
          /\ List.length labels = n
          /\ List.length nearest = n
          /\ result_of (retrieve query (Some k) p)
             = Ret (nearest ++ repeat (last corpus []) (k - n))).
Proof.
  intros Hinit Hk1 n. apply init_inv in Hinit as [Hne [-> _]].
  set (e := SentenceTransformer (default_arg default_embedding_model em)).
  assert (Hn : 0 < n) by (subst n; destruct corpus; simpl; [congruence|lia]).
  destruct (@search_labels NN (index (built corpus em gm))
              (embedder (built corpus em gm) query) k Hk1) as [D HD].
  exists D, (label_row (built corpus em gm) query k).
  split; [exact HD|].
  split.
  { rewrite retrieve_unfold. cbn [default_arg].
    destruct k; [lia|reflexivity]. }
  split.
  { intros i Hi. exists (resolve corpus i). now apply getitem_resolve. }
  split.
  { destruct (@getitem_resolve corpus (-1)) as [-> _]; [fold n; lia|].
    now rewrite resolve_sentinel. }
  intros Hk.
  set (top := scan (e query) (List.map e corpus)).
  assert (Hlen : List.length top <= n).
  { unfold top. etransitivity; [apply scan_length_le|].
    now rewrite length_map. }
  assert (Hrow : label_row (built corpus em gm) query k
                 = (List.map (fun h => Z.of_nat (hit_label h)) top
                    ++ repeat (-1)%Z (n - List.length top))
                   ++ repeat (-1)%Z (k - n)).
  { unfold label_row, built. cbn [embedder index xb]. fold e. fold top.
    rewrite firstn_all2 by lia.
    rewrite <- app_assoc, <- repeat_app. do 2 f_equal. lia. }
  pose proof (label_row_in_range em gm query k Hne) as Hrange.
  rewrite Hrow in Hrange. apply Forall_app in Hrange as [Hrange _].
  exists (List.map (fun h => Z.of_nat (hit_label h)) top
          ++ repeat (-1)%Z (n - List.length top)),
         (List.map (resolve corpus)
            (List.map (fun h => Z.of_nat (hit_label h)) top
             ++ repeat (-1)%Z (n - List.length top))).
  split; [exact Hrow|].
  assert (Hlabels :
            List.length (List.map (fun h => Z.of_nat (hit_label h)) top
                         ++ repeat (-1)%Z (n - List.length top)) = n)
    by (rewrite length_app, length_map, repeat_length; lia).
  split; [exact Hlabels|].
  split; [now rewrite length_map|].
  rewrite retrieve_unfold. cbn [default_arg].
  destruct k as [|k']; [lia|]. rewrite Hrow.
  unfold result_of. cbn [fst built docs]. rewrite pick_resolve.
  - f_equal. rewrite map_app. f_equal. rewrite map_repeat.
    now rewrite resolve_sentinel.
  - apply Forall_app. split; [exact Hrange|].
    apply Forall_forall. intros i Hi. apply repeat_spec in Hi. subst i.
    fold n. lia.
Qed.

End WithModels.

Lemma sample_within_range :
  Forall (within_range (embedder Sample.pipeline) Sample.query) Sample.corpus.
Proof. repeat constructor. Qed.



Lemma generate_prompt_cap_first_witness :
  space_joined Sample.corpus
    (lit "The sky is blue. Cats are mammals. Paris is in France.")
  /\ generator Sample.pipeline Cases.prompt_of_three 64
     = [mk_generation (firstn 64 Cases.prompt_of_three)]
  /\ generate Sample.query Sample.corpus Sample.pipeline
     = (Ret (firstn 64 Cases.prompt_of_three), Sample.pipeline,
        [EvGenerate Cases.prompt_of_three 64]).
Proof.
  assert (Hblock : space_joined Sample.corpus
            (lit "The sky is blue. Cats are mammals. Paris is in France."))
    by exact (joined_more _ (joined_more _ (joined_one _))).
  split; [exact Hblock|]. split; [reflexivity|].
  exact (@generate_prompt_cap_first Sample.Zn Sample.query Sample.corpus
           (lit "The sky is blue. Cats are mammals. Paris is in France.")
           Sample.pipeline
           (mk_generation (firstn 64 Cases.prompt_of_three)) []
           Hblock eq_refl).
Defined.

Example retrieve_beyond_corpus :
  result_of (retrieve Sample.query (Some 5) Sample.pipeline)
  = Ret [lit "The sky is blue."; lit "Cats are mammals.";
         lit "Paris is in France."; lit "Paris is in France.";
         lit "Paris is in France."].
Proof. vm_compute. reflexivity. Qed.

Lemma pipeline_built_once_never_mutated_witness :
  init (MH := Sample.hub) Sample.corpus None None tt
  = (Ret Sample.pipeline, tt,
     log_of (init (MH := Sample.hub) Sample.corpus None None tt))
  /\ docs Sample.pipeline = Sample.corpus
  /\ xb (index Sample.pipeline) = embeddings Sample.pipeline
  /\ count_events is_index_add
       (log_of (init (MH := Sample.hub) Sample.corpus None None tt)) = 1.
Proof.
  split; [reflexivity|].
  destruct (@pipeline_built_once_never_mutated Sample.Zn Sample.hub unit tt tt
              Sample.corpus None None Sample.pipeline
              (log_of (init (MH := Sample.hub) Sample.corpus None None tt))
              eq_refl)
    as [Hdocs [_ [_ [Hxb [_ [Hadd _]]]]]].
  exact (conj Hdocs (conj Hxb Hadd)).
Defined.

Lemma retrieve_unguarded_indexing_witness :
  init (MH := Sample.hub) Sample.corpus None None tt
  = (Ret Sample.pipeline, tt,
     log_of (init (MH := Sample.hub) Sample.corpus None None tt))
  /\ 1 <= 5
  /\ exists D I0,
       search (index Sample.pipeline)
         [embedder Sample.pipeline Sample.query] 5 = Ret (D, [I0])
       /\ result_of (retrieve Sample.query (Some 5) Sample.pipeline)
          = pick Sample.corpus I0
       /\ getitem Sample.corpus (-1) = Ret (last Sample.corpus []).
Proof.
  split; [reflexivity|]. split; [lia|].
  destruct (@retrieve_unguarded_indexing Sample.Zn Sample.hub unit tt tt
              Sample.corpus None None Sample.pipeline
              (log_of (init (MH := Sample.hub) Sample.corpus None None tt))
              Sample.query 5 eq_refl ltac:(lia))
    as [D [I0 [Hrow [Hpick [_ [Hlast _]]]]]].
  exists D, I0. exact (conj Hrow (conj Hpick Hlast)).
Defined.

End RagFacts.

(* ================================================================== *)
(** * app.py: the chat history *)
(* ================================================================== *)

Module AppFacts.
Import Faiss Rag App Spec RagFacts.
Section WithModels.
Context {NN : Numeric} {MH : ModelHub}.

(** The handler, step by step, on an input that is not empty. *)
Lemma on_chat_input_unfold (input : str) (pg : Page) :
  input <> [] ->
  on_chat_input (Some input) pg
  = match answer input (pipeline pg) with
    | (Ret reply, p', log) =>
        (Ret tt,
         mk_page p' (messages pg ++ [user_entry input; assistant_entry reply]),
         log ++ [EvChatWrite (lit "assistant") reply])
    | (Raise e, p', log) =>
        (Raise e, mk_page p' (messages pg ++ [user_entry input]), log)
    end.
Proof.
  intros Hin. destruct input as [|c input]; [congruence|].
  unfold on_chat_input. cbn [truthy].
  unfold bind at 1, append_message at 1, modify at 1.
  unfold bind at 1, on_pipeline, zoom. cbn [pipeline messages].
  destruct (answer (c :: input) (pipeline pg)) as [[[reply|e] p'] log];
    [|reflexivity].
  unfold bind, append_message, modify, chat_write, emit.
  cbn [pipeline messages app]. rewrite <- app_assoc. reflexivity.
Qed.

Lemma on_chat_input_idle (pg : Page) :
  on_chat_input None pg = (Ret tt, pg, [])
  /\ on_chat_input (Some []) pg = (Ret tt, pg, []).
Proof. split; reflexivity. Qed.

(** Drawing the history reads it and writes one chat message per entry. *)
Lemma for_each_chat_write (msgs : list message) (pg : Page) :
  for_each (fun msg => chat_write (role msg) (content msg)) msgs pg
  = (Ret tt, pg,
     List.map (fun msg => EvChatWrite (role msg) (content msg)) msgs).
Proof.
  induction msgs as [|msg msgs IH]; simpl; [reflexivity|].
  unfold bind, chat_write at 1, emit. rewrite IH. reflexivity.
Qed.

Lemma render_history_run (pg : Page) :
  render_history pg
  = (Ret tt, pg,
     List.map (fun msg => EvChatWrite (role msg) (content msg)) (messages pg)).
Proof.
  unfold render_history, bind, gets. rewrite for_each_chat_write. reflexivity.
Qed.

(** A run of the whole script in a session that holds the pipeline and a
    history: the title, the history drawn again, then the handler. *)
Lemma script_cached (fs : filesystem) (user_input : option str)
  (p : RAGPipeline) (msgs : list message) :
  script fs user_input (mk_session (Some p) (Some msgs))
  = let '(o, pg, log) := on_chat_input user_input (mk_page p msgs) in
    (o, mk_session (Some (pipeline pg)) (Some (messages pg)),
     EvTitle title_text
     :: List.map (fun msg => EvChatWrite (role msg) (content msg)) msgs ++ log).
Proof.
  unfold script, cached_get_pipeline, ensure_messages, on_page.
  unfold bind, emit, modify.
  cbn [cached_pipeline session_messages default_arg].
  rewrite render_history_run. cbn [messages].
  destruct (on_chat_input user_input (mk_page p msgs)) as [[o pg] log].
  reflexivity.
Qed.

(** Whatever is submitted, and however the run ends, the history the
    session held is the beginning of the history it holds afterwards. *)
Lemma script_keeps_history (fs : filesystem) (user_input : option str)
  (p : RAGPipeline) (msgs : list message) :
  exists appended,
    session_messages
      (state_of (script fs user_input (mk_session (Some p) (Some msgs))))
    = Some (msgs ++ appended).
Proof.
  rewrite script_cached.
  destruct user_input as [[|c input]|].
  - exists []. cbn. now rewrite app_nil_r.
  - rewrite on_chat_input_unfold by discriminate. cbn [pipeline messages].
    destruct (answer (c :: input) p) as [[[reply|e] p'] log];
      eexists; reflexivity.
  - exists []. cbn. now rewrite app_nil_r.
Qed.

(** C9.  The chat history only grows at its end.  For every input that
    is not empty the message list after the interaction starts with the
    previous list, unchanged and in order.  When [pipeline.answer] returns
    [reply] for the input, the new list is the previous one followed by
    exactly two entries: the user entry with the input, then the assistant
    entry with the answer.  When [pipeline.answer] raises, the new list is
    the previous one followed by the user entry alone, and the exception
    leaves the handler. *)
Theorem chat_history_append_only (input : str) (pg : Page) :
  input <> [] ->
  let after := state_of (on_chat_input (Some input) pg) in
  (exists appended, messages after = messages pg ++ appended)
  /\ (forall reply,
        result_of (answer input (pipeline pg)) = Ret reply ->
        messages after
        = messages pg ++ [mk_message (lit "user") input;
                          mk_message (lit "assistant") reply])
  /\ (forall e,
        result_of (answer input (pipeline pg)) = Raise e ->
        messages after = messages pg ++ [mk_message (lit "user") input]
        /\ result_of (on_chat_input (Some input) pg) = Raise e).
Proof.
  intros Hin after. subst after. rewrite on_chat_input_unfold by exact Hin.
  destruct (answer input (pipeline pg)) as [[[reply|e] p'] log];
    unfold state_of, result_of; cbn [fst snd messages];
    (split; [|split]).
  - eexists. reflexivity.
  - intros r Hr. injection Hr as <-. reflexivity.
  - discriminate.
  - eexists. reflexivity.
  - discriminate.
  - intros e' He. injection He as <-. split; reflexivity.
Qed.

(** C3.  [answer(query)] is [generate(query, retrieve(query))] with the
    result count of [retrieve] left at its default, 3.  What it returns is
    fixed by the query and the pipeline object: an earlier question leaves
    no trace in the object, and in the chat page the outcome, the calls
    made to the models and the pipeline object are the same whatever the
    history holds. *)
Theorem answer_stateless (query : str) (p : RAGPipeline) :
  answer query p
  = (context <- retrieve query (Some 3) ;; generate query context) p
  /\ (forall earlier,
        answer query (state_of (answer earlier p)) = answer query p)
  /\ (forall history history',
        let run h := on_chat_input (Some query) (mk_page p h) in
        result_of (run history) = result_of (run history')
        /\ log_of (run history) = log_of (run history')
        /\ pipeline (state_of (run history))
           = pipeline (state_of (run history'))).
Proof.
  split; [reflexivity|]. split.
  - intros earlier. now destruct (answer_frame earlier p) as [-> _].
  - intros history history' run. subst run. cbv beta.
    destruct query as [|c query]; [repeat split|].
    rewrite !on_chat_input_unfold by discriminate. cbn [pipeline].
    destruct (answer (c :: query) p) as [[[reply|e] p'] log];
      repeat split.
Qed.

End WithModels.

Example chat_turn :
  on_chat_input (Some Sample.query) (mk_page Sample.pipeline [])
  = (Ret tt,
     mk_page Sample.pipeline
       [user_entry Sample.query; assistant_entry Sample.reply],
     [EvEncode [Sample.query]; EvIndexSearch 1 3;
      EvGenerate (prompt_of Sample.query Sample.corpus) 64;
      EvChatWrite (lit "assistant") Sample.reply]).
Proof. vm_compute. reflexivity. Qed.

(** The first run of a session: the corpus is loaded, the pipeline is
    built and cached, the history starts empty. *)
Example first_run :
  script (MH := Sample.hub) Sample.fs None (mk_session None None)
  = (Ret tt,
     mk_session
       (Some (built (MH := Sample.hub)
                [lit "The sky is blue."; lit "Cats are mammals."] None None))
       (Some []),
     [EvTitle title_text;
      EvLoadModel default_embedding_model;
      EvEncode [lit "The sky is blue."; lit "Cats are mammals."];
      EvIndexAdd 2;
      EvLoadModel default_gen_model]).
Proof. vm_compute. reflexivity. Qed.

Lemma chat_history_append_only_witness :
  Sample.query <> []
  /\ result_of (answer Sample.query Sample.pipeline) = Ret Sample.reply
  /\ messages
       (state_of
          (on_chat_input (Some Sample.query)
             (mk_page Sample.pipeline [user_entry (lit "Hello")])))
     = [user_entry (lit "Hello")]
       ++ [mk_message (lit "user") Sample.query;
           mk_message (lit "assistant") Sample.reply].
Proof.
  split; [discriminate|]. split; [vm_compute; reflexivity|].
  apply (proj1 (proj2 (@chat_history_append_only Sample.Zn Sample.query
                         (mk_page Sample.pipeline [user_entry (lit "Hello")])
                         ltac:(discriminate)))).
  vm_compute. reflexivity.
Defined.

(** A turn in which [pipeline.answer] raises: the generator returns no
    candidate, [generate] fails on its first element, and the history
    holds one new entry, the user's, and no assistant entry. *)
Lemma chat_history_one_entry_when_answer_raises :
  let before := [user_entry (lit "Hello")] in
  let turn :=
    on_chat_input (Some Sample.query) (mk_page Cases.mute_pipeline before) in
  result_of (answer Sample.query Cases.mute_pipeline) = Raise index_error
  /\ result_of turn = Raise index_error
  /\ messages (state_of turn) = before ++ [user_entry Sample.query]
  /\ (forall reply,
        messages (state_of turn)
        <> before ++ [mk_message (lit "user") Sample.query;
                      mk_message (lit "assistant") reply]).
Proof.
  cbv zeta. split; [vm_compute; reflexivity|].
  split; [vm_compute; reflexivity|].
  split; [vm_compute; reflexivity|].
  intros reply H.
  apply (f_equal (@List.length message)) in H.
  vm_compute in H. discriminate.
Qed.

End AppFacts.

(* ================================================================== *)
(** * ollama_langchain_agent.py: model selection and the handler *)
(* ================================================================== *)

Module AgentFacts.
Import Agent Spec.

Local Open Scope Z_scope.

Lemma toordinal_target : toordinal target_date = 739049.
Proof. reflexivity. Qed.

Lemma days_before_year_2024 : days_before_year 2024 = 738885.
Proof. reflexivity. Qed.

Lemma month_cases (m : Z) :
  1 <= m <= 12 ->
  m = 1 \/ m = 2 \/ m = 3 \/ m = 4 \/ m = 5 \/ m = 6
  \/ m = 7 \/ m = 8 \/ m = 9 \/ m = 10 \/ m = 11 \/ m = 12.
Proof. lia. Qed.

(** The days of a year before a month, and the day within the month,
    never add up to more than a leap year holds. *)
Lemma day_of_year_bounds (y m dd : Z) :
  1 <= m <= 12 -> 1 <= dd <= days_in_month y m ->
  1 <= days_before_month y m + dd <= 366.
Proof.
  intros Hm Hd. unfold days_before_month.
  apply month_cases in Hm.
  repeat (destruct Hm as [Hm | Hm]); subst m;
    unfold days_in_month in *; destruct (is_leap y);
    match goal with
    | |- context [fold_left ?f ?l ?a] =>
        let v := eval vm_compute in (fold_left f l a) in
        change (fold_left f l a) with v
    end;
    cbn in Hd; lia.
Qed.

(** In 2024 the day numbers follow the order of month and day: checked
    on every month and day number a date of that year can have. *)
Lemma table_2024 :
  forallb (fun m => forallb (agrees_in_2024 (Z.of_nat m)) 
                      (List.map Z.of_nat (seq 1 31)))
          (seq 1 12) = true.
Proof. vm_compute. reflexivity. Qed.

Lemma order_within_2024 (m dd : Z) :
  1 <= m <= 12 -> 1 <= dd <= days_in_month 2024 m ->
  date_gt (mk_date 2024 m dd) target_date = true
  <-> 739049 < toordinal (mk_date 2024 m dd).
Proof.
  intros Hm Hd.
  assert (Hd31 : 1 <= dd <= 31).
  { unfold days_in_month in Hd.
    destruct (m =? 2); [destruct (is_leap 2024)|];
      [| |destruct ((m =? 4) || (m =? 6) || (m =? 9) || (m =? 11))]; lia. }
  pose proof table_2024 as T.
  rewrite forallb_forall in T.
  specialize (T (Z.to_nat m)). rewrite in_seq in T.
  specialize (T ltac:(lia)). rewrite forallb_forall in T.
  specialize (T dd). rewrite Z2Nat.id in T by lia.
  assert (Hin : In dd (List.map Z.of_nat (seq 1 31))).
  { apply in_map_iff. exists (Z.to_nat dd). split; [lia|].
    apply in_seq. lia. }
  specialize (T Hin). unfold agrees_in_2024 in T.
  apply eqb_prop in T. rewrite T. apply Z.ltb_lt.
Qed.

(** Python compares dates field by field; on the dates a [date] object
    can hold this is the order of the calendar. *)
Lemma date_gt_target (today : date) :
  valid_date today ->
  date_gt today target_date = true
  <-> toordinal target_date < toordinal today.
Proof.
  destruct today as [y m dd]. unfold valid_date. cbn [year month day].
  intros [Hy [Hm Hd]]. rewrite toordinal_target.
  assert (Hdoy := day_of_year_bounds y Hm Hd).
  assert (y < 2024 \/ y = 2024 \/ 2024 < y) as [Hlt | [-> | Hgt]] by lia.
  - unfold toordinal, date_gt, target_date. cbn [year month day].
    replace (2024 <? y) with false by (symmetry; apply Z.ltb_ge; lia).
    replace (y =? 2024) with false by (symmetry; apply Z.eqb_neq; lia).
    cbn [orb andb]. split; [discriminate|].
    unfold days_before_year. intros H. exfalso.
    Z.div_mod_to_equations. lia.
  - now apply order_within_2024.
  - unfold toordinal, date_gt, target_date. cbn [year month day].
    replace (2024 <? y) with true by (symmetry; apply Z.ltb_lt; lia).
    cbn [orb]. split; [|reflexivity]. intros _.
    unfold days_before_year. Z.div_mod_to_equations. lia.
Qed.

Example select_day_after :
  llm_model (mk_date 2024 6 13) = lit "llama2".
Proof. reflexivity. Qed.

Example select_threshold :
  llm_model (mk_date 2024 6 12) = lit "llama2:7b".
Proof. reflexivity. Qed.

Example select_earlier_year_later_month :
  llm_model (mk_date 2023 12 31) = lit "llama2:7b".
Proof. reflexivity. Qed.



Section WithLangChain.
Context {LC : LangChain}.

(** The script, step by step: the agent is run once on the question;
    its result is printed, or the handler prints the error and the hint
    when the exception is an instance of [Exception]; any other exception
    leaves the script as it came. *)
Lemma script_unfold (now : datetime) :
  script now tt
  = match run (the_agent now) question with
    | Ret answer =>
        (Ret tt, tt,
         [EvAgentRun question; EvPrint (lit "Result: " ++ result_str answer)])
    | Raise e =>
        if isinstance e Exception then
          (Ret tt, tt,
           [EvAgentRun question;
            EvPrint (lit "Error occurred: " ++ exn_str e);
            EvPrint hint])
        else (Raise e, tt, [EvAgentRun question])
    end.
Proof.
  unfold script, try_except, call_agent, the_agent. cbv zeta.
  unfold bind at 1. unfold bind at 1, emit at 1, lift at 1.
  destruct (run _ question) as [answer|e]; [reflexivity|].
  destruct (isinstance e Exception); reflexivity.
Qed.

(** C5.  An exception raised while the agent runs on the question, when
    it is an instance of [Exception], is caught by the one handler of the
    script: the message of the exception is printed, then the hint, and
    the script ends normally.  An exception that is not an instance of
    [Exception] is not caught: it leaves the script, and the handler
    prints nothing.  Either way the agent has been run once and is not run
    again. *)
Theorem agent_exception_handling (now : datetime) (e : exn) :
  run (the_agent now) question = Raise e ->
  script now tt
  = (if isinstance e Exception then
       (Ret tt, tt,
        [EvAgentRun question;
         EvPrint (lit "Error occurred: " ++ exn_str e);
         EvPrint (lit "Make sure Ollama is running and the model is available")])
     else (Raise e, tt, [EvAgentRun question]))
  /\ count_events is_agent_run (log_of (script now tt)) = 1%nat.
Proof.
  intros Hrun.
  assert (Hscript : script now tt
            = if isinstance e Exception then
                (Ret tt, tt,
                 [EvAgentRun question;
                  EvPrint (lit "Error occurred: " ++ exn_str e);
                  EvPrint hint])
              else (Raise e, tt, [EvAgentRun question])).
  { rewrite script_unfold, Hrun. reflexivity. }
  split; [exact Hscript|].
  rewrite Hscript. destruct (isinstance e Exception); reflexivity.
Qed.

End WithLangChain.

Example script_answering :
  script (LC := Sample.answering) (Sample.noon Sample.today) tt
  = (Ret tt, tt,
     [EvAgentRun question; EvPrint (lit "Result: Machine Learning")]).
Proof. reflexivity. Qed.

Lemma agent_exception_handling_witness :
  run (LangChain := Sample.offline)
    (the_agent (LC := Sample.offline) (Sample.noon Sample.today)) question
  = Raise Sample.refused
  /\ script (LC := Sample.offline) (Sample.noon Sample.today) tt
     = (Ret tt, tt,
        [EvAgentRun question;
         EvPrint (lit "Error occurred: Connection refused");
         EvPrint (lit "Make sure Ollama is running and the model is available")]).
Proof.
  split; [reflexivity|].
  exact (proj1 (@agent_exception_handling Sample.offline
                  (Sample.noon Sample.today) Sample.refused eq_refl)).
Defined.

(** An interrupt from the keyboard while the agent runs is an exception
    the handler does not catch: the script ends with the exception, and
    neither the error line nor the hint is printed. *)
Lemma keyboard_interrupt_escapes :
  run (LangChain := Sample.interrupted)
    (the_agent (LC := Sample.interrupted) (Sample.noon Sample.today)) question
  = Raise Sample.interrupt
  /\ isinstance Sample.interrupt BaseException = true
  /\ script (LC := Sample.interrupted) (Sample.noon Sample.today) tt
     = (Raise Sample.interrupt, tt, [EvAgentRun question])
  /\ count_events is_print
       (log_of (script (LC := Sample.interrupted)
                  (Sample.noon Sample.today) tt)) = 0%nat.
Proof. repeat split. Qed.

End AgentFacts.

(* ================================================================== *)
(** * loader.py: the shape of the documents *)
(* ================================================================== *)

Module LoaderMore.
Import Spec Coverage PyFacts.

(** What [load_news] evaluates to on a file that exists. *)
Lemma load_news_run (S : Type) (fs : filesystem) (file_path : option str)
  (content : str) (s : S) :
  fs (default_arg Loader.default_file_path file_path) = Some content ->
  Loader.load_news fs file_path s = (Ret (documents_of content), s, []).
Proof.
  intros Hfs. unfold Loader.load_news, open_r. cbv zeta. rewrite Hfs.
  unfold bind at 1, lift at 1. unfold bind at 1.
  rewrite list_comp_pure.
  rewrite (filter_ext (fun line => truthy (strip line)) not_blank)
    by (intros l; apply truthy_strip).
  reflexivity.
Qed.

Lemma load_news_absent (S : Type) (fs : filesystem) (file_path : option str)
  (s : S) :
  fs (default_arg Loader.default_file_path file_path) = None ->
  Loader.load_news fs file_path s
  = (Raise (file_not_found (default_arg Loader.default_file_path file_path)),
     s, []).
Proof.
  intros Hfs. unfold Loader.load_news, open_r. cbv zeta. rewrite Hfs.
  reflexivity.
Qed.

(** Translated text holds no carriage return. *)
Lemma universal_newlines_no_CR_upto (n : nat) (s : str) :
  List.length s <= n -> ~ In CR (universal_newlines s).
Proof.
  revert s. induction n as [|n IH]; intros s Hlen.
  - destruct s; [simpl; tauto|simpl in Hlen; lia].
  - destruct s as [|c rest]; [simpl; tauto|]. simpl in Hlen.
    cbn [universal_newlines]. destruct (c =? CR)%N eqn:Ec.
    + destruct rest as [|d rest'].
      * simpl. intros [H | []]. discriminate.
      * simpl in Hlen. destruct (d =? LF)%N.
        -- intros [H | H]; [discriminate|]. revert H. apply IH. lia.
        -- intros [H | H]; [discriminate|]. revert H. apply IH. simpl. lia.
    + intros [H | H].
      * subst c. rewrite N.eqb_refl in Ec. discriminate.
      * revert H. apply IH. lia.
Qed.

Lemma universal_newlines_no_CR (s : str) : ~ In CR (universal_newlines s).
Proof. now apply (universal_newlines_no_CR_upto (n := List.length s)). Qed.

(** Text without carriage return is read as it is. *)
Lemma universal_newlines_id (s : str) :
  ~ In CR s -> universal_newlines s = s.
Proof.
  induction s as [|c rest IH]; [reflexivity|]. intros Hno.
  cbn [universal_newlines].
  destruct (c =? CR)%N eqn:Ec.
  - apply N.eqb_eq in Ec. subst c. exfalso. apply Hno. now left.
  - rewrite IH; [reflexivity|]. intros H. apply Hno. now right.
Qed.

(** A line holds characters of the text, and a line feed at its end
    only. *)
Lemma split_lines_incl (t : str) (l : str) (c : char) :
  In l (split_lines t) -> In c l -> In c t.
Proof.
  revert l. induction t as [|a rest IH]; intros l; simpl; [tauto|].
  destruct (a =? LF)%N.
  - intros [<- | Hl] Hc.
    + destruct Hc as [<- | []]. now left.
    + right. eapply IH; eauto.
  - destruct (split_lines rest) as [|l0 ls].
    + intros [<- | []] [<- | []]. now left.
    + intros [<- | Hl] Hc.
      * destruct Hc as [<- | Hc]; [now left|].
        right. apply (IH l0); [now left|exact Hc].
      * right. apply (IH l); [now right|exact Hc].
Qed.

Lemma split_lines_nonempty (t : str) (l : str) :
  In l (split_lines t) -> l <> [].
Proof.
  revert l. induction t as [|a rest IH]; intros l; simpl; [tauto|].
  destruct (a =? LF)%N.
  - intros [<- | Hl]; [discriminate|auto].
  - destruct (split_lines rest) as [|l0 ls].
    + intros [<- | []]. discriminate.
    + intros [<- | Hl]; [discriminate|]. apply IH. now right.
Qed.

Lemma split_lines_LF_last (t : str) (l : str) :
  In l (split_lines t) -> ~ In LF (removelast l).
Proof.
  revert l. induction t as [|a rest IH]; intros l; simpl; [tauto|].
  destruct (a =? LF)%N eqn:Ea.
  - intros [<- | Hl]; [simpl; tauto|auto].
  - destruct (split_lines rest) as [|l0 ls] eqn:Er.
    + intros [<- | []]. simpl. tauto.
    + intros [<- | Hl]; [|apply IH; now right].
      assert (Hl0 : l0 <> []) by (apply (@split_lines_nonempty rest); rewrite Er; now left).
      destruct l0 as [|b l0']; [congruence|].
      change (removelast (a :: b :: l0')) with (a :: removelast (b :: l0')).
      intros [H | H].
      * subst a. rewrite N.eqb_refl in Ea. discriminate.
      * revert H. apply IH. now left.
Qed.

(** A trimmed piece of a line holds no line feed. *)
Lemma trims_to_no_LF (l doc : str) :
  ~ In LF (removelast l) -> trims_to l doc -> ~ In LF doc.
Proof.
  intros Hl [before [after [Heq [_ [_ [_ [_ Hlast]]]]]]] Hin.
  apply in_split in Hin as [d1 [d2 Hd]].
  destruct d2 as [|c d2].
  - specialize (Hlast LF). rewrite Hd, rev_app_distr in Hlast.
    specialize (Hlast eq_refl). discriminate.
  - apply Hl. rewrite Heq, Hd.
    replace (before ++ (d1 ++ LF :: c :: d2) ++ after)
      with ((before ++ d1) ++ LF :: c :: d2 ++ after)
      by (rewrite <- !app_assoc; reflexivity).
    rewrite removelast_app by discriminate.
    apply in_or_app. right.
    change (removelast (LF :: c :: d2 ++ after))
      with (LF :: removelast (c :: d2 ++ after)).
    now left.
Qed.

Lemma trims_to_incl (l doc : str) (c : char) :
  trims_to l doc -> In c doc -> In c l.
Proof.
  intros [before [after [-> _]]] Hc.
  apply in_or_app. right. apply in_or_app. now left.
Qed.

Lemma documents_single_line (content : str) :
  Forall single_line (documents_of content).
Proof.
  unfold documents_of. apply Forall_forall. intros doc Hdoc.
  apply in_map_iff in Hdoc as [l [<- Hl]].
  apply filter_In in Hl as [Hl Hnb].
  assert (Ht : trims_to l (strip l)).
  { apply strip_trims. unfold not_blank in Hnb. now destruct (blank l). }
  split.
  - eapply trims_to_no_LF; [|exact Ht]. eapply split_lines_LF_last. exact Hl.
  - intros Hc. apply (@universal_newlines_no_CR content).
    eapply split_lines_incl; [exact Hl|].
    eapply trims_to_incl; eauto.
Qed.

(** No document [load_news] returns holds a line feed or a carriage
    return: a document never spans lines, whatever line endings the file
    uses. *)
Theorem load_news_single_lines (S : Type) (fs : filesystem)
  (file_path : option str) (content : str) (s : S) :
  fs (default_arg Loader.default_file_path file_path) = Some content ->
  exists docs,
    Loader.load_news fs file_path s = (Ret docs, s, [])
    /\ Forall single_line docs.
Proof.
  intros Hfs. exists (documents_of content). split.
  - now apply load_news_run.
  - apply documents_single_line.
Qed.

Lemma load_news_single_lines_witness :
  Sample.fs Loader.default_file_path = Some Sample.content
  /\ exists docs,
       Loader.load_news Sample.fs None tt = (Ret docs, tt, [])
       /\ Forall single_line docs.
Proof.
  split; [reflexivity|].
  apply (@load_news_single_lines unit Sample.fs None Sample.content tt).
  reflexivity.
Defined.

(** ** Round trip through the one-document-per-line format *)

Lemma split_lines_line (doc rest : str) :
  ~ In LF doc ->
  split_lines (doc ++ LF :: rest) = (doc ++ [LF]) :: split_lines rest.
Proof.
  induction doc as [|c doc IH]; intros Hno.
  - reflexivity.
  - cbn [app split_lines].
    destruct (c =? LF)%N eqn:Ec.
    + apply N.eqb_eq in Ec. subst c. exfalso. apply Hno. now left.
    + rewrite IH by (intros H; apply Hno; now right). reflexivity.
Qed.

Lemma split_lines_unlines (documents : list str) :
  Forall (fun doc => ~ In LF doc) documents ->
  split_lines (unlines documents)
  = List.map (fun doc => doc ++ [LF]) documents.
Proof.
  induction 1 as [|doc documents Hdoc _ IH]; [reflexivity|].
  cbn [unlines flat_map List.map]. rewrite <- app_assoc. cbn [app].
  rewrite split_lines_line by exact Hdoc. f_equal. exact IH.
Qed.

Lemma unlines_no_CR (documents : list str) :
  Forall (fun doc => ~ In CR doc) documents -> ~ In CR (unlines documents).
Proof.
  induction 1 as [|doc documents Hdoc _ IH]; [simpl; tauto|].
  cbn [unlines flat_map]. intros H.
  apply in_app_or in H as [H | H]; [|now apply IH].
  apply in_app_or in H as [H | [H | []]]; [now apply Hdoc|discriminate].
Qed.

Lemma lstrip_fixed (s : str) :
  (forall c, hd_error s = Some c -> isspace c = false) -> lstrip s = s.
Proof.
  destruct s as [|c r]; [reflexivity|]. intros H. simpl.
  now rewrite (H c eq_refl).
Qed.

(** A trimmed text followed by a line feed strips back to itself. *)
Lemma strip_line (doc : str) : trimmed doc -> strip (doc ++ [LF]) = doc.
Proof.
  intros [Hne [Hhd Hlast]]. unfold strip, rstrip.
  rewrite (@lstrip_fixed (doc ++ [LF])).
  - rewrite rev_app_distr. cbn [rev app lstrip].
    change (isspace LF) with true. cbv iota.
    rewrite lstrip_fixed by exact Hlast. apply rev_involutive.
  - intros c Hc. apply Hhd. destruct doc; [congruence|exact Hc].
Qed.

Lemma line_not_blank (doc : str) : trimmed doc -> not_blank (doc ++ [LF]) = true.
Proof.
  intros [Hne [Hhd _]]. destruct doc as [|c r]; [congruence|].
  unfold not_blank, blank. cbn [app forallb].
  now rewrite (Hhd c eq_refl).
Qed.

Lemma documents_of_unlines (documents : list str) :
  Forall (fun doc => trimmed doc /\ single_line doc) documents ->
  documents_of (unlines documents) = documents.
Proof.
  intros Hall. unfold documents_of, file_lines.
  rewrite universal_newlines_id.
  2:{ apply unlines_no_CR. eapply Forall_impl; [|exact Hall].
      intros doc [_ [_ H]]. exact H. }
  rewrite split_lines_unlines.
  2:{ eapply Forall_impl; [|exact Hall]. intros doc [_ [H _]]. exact H. }
  induction Hall as [|doc documents [Htrim _] _ IH]; [reflexivity|].
  cbn [List.map filter]. rewrite line_not_blank by exact Htrim.
  cbn [List.map]. rewrite strip_line by exact Htrim. now rewrite IH.
Qed.

(** Documents that are trimmed and hold no line terminator, written one
    per line, are what [load_news] reads back: same documents, same
    order, duplicates kept. *)
Theorem load_news_round_trip (S : Type) (fs : filesystem)
  (file_path : option str) (documents : list str) (s : S) :
  Forall (fun doc => trimmed doc /\ single_line doc) documents ->
  fs (default_arg Loader.default_file_path file_path)
  = Some (unlines documents) ->
  Loader.load_news fs file_path s = (Ret documents, s, []).
Proof.
  intros Hall Hfs. rewrite (@load_news_run S fs file_path _ s Hfs).
  now rewrite documents_of_unlines.
Qed.

Lemma two_documents_writable :
  Forall (fun doc => trimmed doc /\ single_line doc) Cases.two_documents.
Proof.
  repeat constructor; try discriminate;
    try (intros c H; injection H as <-; reflexivity);
    intros H; repeat (destruct H as [H | H]; [discriminate|]); exact H.
Qed.

Lemma load_news_round_trip_witness :
  Forall (fun doc => trimmed doc /\ single_line doc) Cases.two_documents
  /\ Cases.written Loader.default_file_path
     = Some (unlines Cases.two_documents)
  /\ Loader.load_news Cases.written None tt
     = (Ret Cases.two_documents, tt, []).
Proof.
  split; [exact two_documents_writable|]. split; [reflexivity|].
  apply (@load_news_round_trip unit Cases.written None Cases.two_documents tt
           two_documents_writable).
  reflexivity.
Defined.

End LoaderMore.

(* ================================================================== *)
(** * rag_pipeline.py: what is retrieved, and when answering fails *)
(* ================================================================== *)

Module RagMore.
Import Faiss Rag Spec Coverage PyFacts FaissFacts RagFacts.
Section WithModels.
Context {NN : Numeric} {MH : ModelHub}.

Lemma map_nth_seq (A : Type) (l : list A) (dflt : A) :
  List.map (fun j => nth j l dflt) (seq 0 (List.length l)) = l.
Proof.
  induction l as [|a l IH]; [reflexivity|].
  cbn [List.length seq List.map nth]. f_equal.
  rewrite <- seq_shift, map_map. exact IH.
Qed.

Lemma skipn_repeat (A : Type) (x : A) (a b : nat) :
  skipn a (repeat x b) = repeat x (b - a).
Proof.
  revert b. induction a as [|a IH]; intros b.
  - now rewrite Nat.sub_0_r.
  - destruct b as [|b]; [reflexivity|]. cbn [repeat skipn]. apply IH.
Qed.

Lemma NoDup_firstn (A : Type) (k : nat) (l : list A) :
  NoDup l -> NoDup (firstn k l).
Proof.
  intros H. rewrite <- (firstn_skipn k l) in H.
  eapply NoDup_app_remove_r. exact H.
Qed.

(** What [retrieve] returns on a built pipeline, for every result
    count but zero: the documents the labels of the row select. *)
Lemma retrieve_built (corpus : list str) (em gm : option str)
  (query : str) (top_k : option nat) :
  corpus <> [] ->
  1 <= default_arg default_top_k top_k ->
  retrieve query top_k (built corpus em gm)
  = (Ret (List.map (resolve corpus)
            (label_row (built corpus em gm) query
               (default_arg default_top_k top_k))),
     built corpus em gm,
     [EvEncode [query]; EvIndexSearch 1 (default_arg default_top_k top_k)]).
Proof.
  intros Hne Hk. rewrite retrieve_unfold. cbn [built docs].
  destruct (default_arg default_top_k top_k) as [|k]; [lia|].
  rewrite pick_resolve by now apply label_row_in_range.
  reflexivity.
Qed.

(** Within the corpus size and with every document within range, the
    documents found are those at the labels of the first [k]
    candidates. *)
Lemma retrieve_found (corpus : list str) (em gm : option str)
  (query : str) (k : nat) :
  corpus <> [] -> 1 <= k <= List.length corpus ->
  Forall (within_range (embedder (built corpus em gm)) query) corpus ->
  result_of (retrieve query (Some k) (built corpus em gm))
  = Ret (List.map (fun j => nth j corpus [])
           (List.map hit_label
              (firstn k (scan (embedder (built corpus em gm) query)
                           (List.map (embedder (built corpus em gm)) corpus))))).
Proof.
  intros Hne Hk Hrange. rewrite retrieve_built; [|exact Hne|cbn; lia].
  unfold result_of. cbn [fst default_arg]. f_equal.
  unfold label_row. cbn [built embedder index xb].
  rewrite length_firstn, scan_length by now apply rows_within_range.
  rewrite length_map.
  replace (k - Nat.min k (List.length corpus)) with 0 by lia.
  cbn [repeat]. rewrite app_nil_r, !map_map.
  apply map_ext. intros h. apply resolve_label.
Qed.

(** With as many results as documents, and every document within range
    of the query, [retrieve] returns the whole corpus, every document as
    often as the corpus holds it, reordered. *)
Theorem retrieve_all_permutes_corpus (S : Type) (s s' : S)
  (corpus : list str) (em gm : option str) (p : RAGPipeline)
  (log : list event) (query : str) :
  init corpus em gm s = (Ret p, s', log) ->
  Forall (within_range (embedder p) query) corpus ->
  exists found,
    result_of (retrieve query (Some (List.length corpus)) p) = Ret found
    /\ Permutation found corpus.
Proof.
  intros Hinit Hrange. apply init_inv in Hinit as [Hne [-> _]].
  assert (Hn : 1 <= List.length corpus)
    by (destruct corpus; simpl; [congruence|lia]).
  pose proof (rows_within_range Hrange) as Hrows.
  eexists. split; [apply retrieve_found; [exact Hne|lia|exact Hrange]|].
  rewrite firstn_all2 by (rewrite scan_length, length_map by exact Hrows; lia).
  apply perm_trans
    with (List.map (fun j => nth j corpus []) (seq 0 (List.length corpus)));
    [|now rewrite map_nth_seq].
  apply Permutation_map.
  rewrite <- (length_map (embedder (built corpus em gm)) corpus).
  now apply scan_labels.
Qed.

(** The documents [retrieve] returns are the nearest ones: with
    [1 <= k <= n] and every document within range of the query, they sit
    at [k] different positions of the corpus, and no document at another
    position is strictly closer to the query than a returned one (the
    comparison of distances being total below the largest value, and
    chaining). *)
Theorem retrieve_returns_nearest (total : total_below_max NN)
  (trans : transitive_order NN) (S : Type) (s s' : S)
  (corpus : list str) (em gm : option str) (p : RAGPipeline)
  (log : list event) (query : str) (k : nat) :
  init corpus em gm s = (Ret p, s', log) ->
  1 <= k <= List.length corpus ->
  Forall (within_range (embedder p) query) corpus ->
  exists positions : list nat,
    NoDup positions
    /\ List.length positions = k
    /\ result_of (retrieve query (Some k) p)
       = Ret (List.map (fun j => nth j corpus []) positions)
    /\ forall i j,
         In i positions -> j < List.length corpus -> ~ In j positions ->
         closer_or_equal (embedder p) query
           (nth i corpus []) (nth j corpus []).
Proof.
  intros Hinit Hk Hrange. apply init_inv in Hinit as [Hne [-> _]].
  pose proof (rows_within_range Hrange) as Hrows.
  set (e := embedder (built corpus em gm)) in *.
  set (cands := scan (e query) (List.map e corpus)).
  assert (Hperm : Permutation (List.map hit_label cands)
                    (seq 0 (List.length corpus))).
  { unfold cands. rewrite <- (length_map e corpus). now apply scan_labels. }
  exists (List.map hit_label (firstn k cands)). repeat split.
  - rewrite <- firstn_map. apply NoDup_firstn.
    eapply Permutation_NoDup; [symmetry; exact Hperm|apply seq_NoDup].
  - rewrite length_map, length_firstn. unfold cands.
    rewrite scan_length, length_map by exact Hrows. lia.
  - now apply retrieve_found.
  - intros i j Hi Hj Hnot.
    apply in_map_iff in Hi as [near [<- Hnear]].
    assert (Hin : In j (List.map hit_label cands)).
    { eapply Permutation_in; [symmetry; exact Hperm|]. apply in_seq. lia. }
    apply in_map_iff in Hin as [far [<- Hfar]].
    rewrite <- (firstn_skipn k cands) in Hfar.
    apply in_app_or in Hfar as [Hfar | Hfar].
    { exfalso. apply Hnot. apply in_map_iff. eauto. }
    unfold closer_or_equal.
    destruct (@candidate_document NN e corpus query near
                (In_firstn _ _ _ Hnear)) as [_ [_ <-]].
    destruct (@candidate_document NN e corpus query far
                ltac:(rewrite <- (firstn_skipn k); apply in_or_app; right;
                      exact Hfar)) as [_ [_ <-]].
    now apply (@scan_nearest NN total trans (e query) (List.map e corpus) k).
Qed.

(** [answer] always conditions the generator on exactly three documents
    of the corpus: retrieval with the default count succeeds on every
    built pipeline, whatever the size of the corpus, and a corpus of fewer
    than three documents has its last document repeated to fill the
    context. *)
Theorem answer_context_of_three (S : Type) (s s' : S)
  (corpus : list str) (em gm : option str) (p : RAGPipeline)
  (log : list event) (query : str) :
  init corpus em gm s = (Ret p, s', log) ->
  exists context,
    retrieve query None p
    = (Ret context, p, [EvEncode [query]; EvIndexSearch 1 3])
    /\ List.length context = 3
    /\ Forall (fun doc => In doc corpus) context
    /\ skipn (List.length corpus) context
       = repeat (last corpus []) (3 - List.length corpus)
    /\ log_of (answer query p)
       = [EvEncode [query]; EvIndexSearch 1 3;
          EvGenerate (prompt_of query context) 64].
Proof.
  intros Hinit. apply init_inv in Hinit as [Hne [-> _]].
  pose proof (label_row_in_range em gm query 3 Hne) as Hrange.
  eexists.
  split; [apply retrieve_built;
          [exact Hne|unfold default_arg, default_top_k; lia]|].
  cbn [default_arg].
  split; [now rewrite length_map, label_row_length|].
  split.
  { apply Forall_forall. intros doc Hdoc.
    apply in_map_iff in Hdoc as [i [<- Hi]].
    rewrite Forall_forall in Hrange. now apply getitem_resolve, Hrange. }
  split.
  { unfold label_row at 1, default_top_k.
    cbn [built embedder index xb]. rewrite map_app, map_repeat.
    rewrite resolve_sentinel by exact Hne.
    set (top := firstn 3 _).
    assert (Htop : List.length top <= 3 /\ List.length top <= List.length corpus).
    { unfold top. rewrite length_firstn. split; [lia|].
      etransitivity; [apply Nat.le_min_r|].
      etransitivity; [apply scan_length_le|]. now rewrite length_map. }
    rewrite skipn_app, skipn_all2 by (rewrite !length_map; lia).
    rewrite !length_map. cbn [app]. rewrite skipn_repeat. f_equal. lia. }
  rewrite answer_unfold. cbn [built docs].
  rewrite pick_resolve by exact Hrange. reflexivity.
Qed.

End WithModels.

Lemma Zn_trans : transitive_order Sample.Zn.
Proof.
  intros a b c Hab Hbc. simpl in *.
  apply Z.leb_le in Hab, Hbc. apply Z.leb_le. lia.
Qed.

Lemma sample_built :
  init (MH := Sample.hub) Sample.corpus None None tt
  = (Ret Sample.pipeline, tt,
     log_of (init (MH := Sample.hub) Sample.corpus None None tt)).
Proof. reflexivity. Qed.

Lemma retrieve_all_permutes_corpus_witness :
  init (MH := Sample.hub) Sample.corpus None None tt
  = (Ret Sample.pipeline, tt,
     log_of (init (MH := Sample.hub) Sample.corpus None None tt))
  /\ Forall (within_range (embedder Sample.pipeline) Sample.query)
       Sample.corpus
  /\ exists found,
       result_of (retrieve Sample.query (Some 3) Sample.pipeline) = Ret found
       /\ Permutation found Sample.corpus.
Proof.
  split; [reflexivity|]. split; [exact sample_within_range|].
  exact (@retrieve_all_permutes_corpus Sample.Zn Sample.hub unit tt tt
           Sample.corpus None None Sample.pipeline _ Sample.query
           sample_built sample_within_range).
Defined.

Lemma retrieve_returns_nearest_witness :
  total_below_max Sample.Zn /\ transitive_order Sample.Zn
  /\ init (MH := Sample.hub) Sample.corpus None None tt
     = (Ret Sample.pipeline, tt,
        log_of (init (MH := Sample.hub) Sample.corpus None None tt))
  /\ 1 <= 1 <= List.length Sample.corpus
  /\ Forall (within_range (embedder Sample.pipeline) Sample.query)
       Sample.corpus
  /\ exists positions : list nat,
       NoDup positions
       /\ List.length positions = 1
       /\ result_of (retrieve Sample.query (Some 1) Sample.pipeline)
          = Ret (List.map (fun j => nth j Sample.corpus []) positions)
       /\ forall i j,
            In i positions -> j < List.length Sample.corpus ->
            ~ In j positions ->
            closer_or_equal (embedder Sample.pipeline) Sample.query
              (nth i Sample.corpus []) (nth j Sample.corpus []).
Proof.
  split; [exact Zn_total|]. split; [exact Zn_trans|].
  split; [reflexivity|]. split; [simpl; lia|].
  split; [exact sample_within_range|].
  apply (@retrieve_returns_nearest Sample.Zn Sample.hub Zn_total Zn_trans
           unit tt tt Sample.corpus None None Sample.pipeline _
           Sample.query 1 sample_built).
  - simpl. lia.
  - exact sample_within_range.
Defined.

Lemma lone_built :
  init (MH := Sample.hub) [lit "The sky is blue."] None None tt
  = (Ret Cases.lone_pipeline, tt,
     log_of (init (MH := Sample.hub) [lit "The sky is blue."] None None tt)).
Proof. reflexivity. Qed.

Example answer_over_one_document :
  retrieve Sample.query None Cases.lone_pipeline
  = (Ret [lit "The sky is blue."; lit "The sky is blue.";
          lit "The sky is blue."],
     Cases.lone_pipeline,
     [EvEncode [Sample.query]; EvIndexSearch 1 3]).
Proof. vm_compute. reflexivity. Qed.

Lemma answer_context_of_three_witness :
  init (MH := Sample.hub) [lit "The sky is blue."] None None tt
  = (Ret Cases.lone_pipeline, tt,
     log_of (init (MH := Sample.hub) [lit "The sky is blue."] None None tt))
  /\ exists context,
       retrieve Sample.query None Cases.lone_pipeline
       = (Ret context, Cases.lone_pipeline,
          [EvEncode [Sample.query]; EvIndexSearch 1 3])
       /\ List.length context = 3
       /\ skipn 1 context = repeat (lit "The sky is blue.") 2.
Proof.
  split; [reflexivity|].
  destruct (@answer_context_of_three Sample.Zn Sample.hub unit tt tt
              [lit "The sky is blue."] None None Cases.lone_pipeline _
              Sample.query lone_built)
    as [context [Hret [Hlen [_ [Hpad _]]]]].
  exists context. exact (conj Hret (conj Hlen Hpad)).
Defined.

Example answer_mute :
  answer Sample.query Cases.mute_pipeline
  = (Raise index_error, Cases.mute_pipeline,
     [EvEncode [Sample.query]; EvIndexSearch 1 3;
      EvGenerate (prompt_of Sample.query Sample.corpus) 64]).
Proof. vm_compute. reflexivity. Qed.

End RagMore.

(* ================================================================== *)
(** * app.py: the runs of the script in a session *)
(* ================================================================== *)

Module AppMore.
Import Faiss Rag App Spec Coverage PyFacts RagFacts AppFacts LoaderMore RagMore.
Section WithModels.
Context {NN : Numeric} {MH : ModelHub}.

Lemma count_events_app (f : event -> bool) (a b : list event) :
  count_events f (a ++ b) = count_events f a + count_events f b.
Proof. unfold count_events. now rewrite filter_app, length_app. Qed.

Lemma drawn_no_build (msgs : list message) :
  count_events is_build_event (drawn msgs) = 0.
Proof. induction msgs as [|m msgs IH]; [reflexivity|exact IH]. Qed.

(** The handler, for every value of the input box: the pipeline object
    is left as it was, the history grows by the entries of the turn, and
    no entry of building a pipeline is logged. *)
Lemma on_chat_input_state (user_input : option str) (pg : Page) :
  state_of (on_chat_input user_input pg)
  = mk_page (pipeline pg)
      (messages pg ++ turn_entries (pipeline pg) user_input).
Proof.
  destruct pg as [p msgs]. cbn [pipeline messages].
  destruct user_input as [[|c input]|]; cbn [turn_entries truthy];
    try (cbn; now rewrite app_nil_r).
  rewrite on_chat_input_unfold by discriminate. cbn [pipeline messages].
  pose proof (answer_frame (c :: input) p) as [Hp _].
  destruct (answer (c :: input) p) as [[[reply|e] p'] log];
    unfold state_of, result_of in *; cbn [fst snd] in *; subst p';
    reflexivity.
Qed.

Lemma on_chat_input_no_build (user_input : option str) (pg : Page) :
  count_events is_build_event (log_of (on_chat_input user_input pg)) = 0.
Proof.
  destruct user_input as [[|c input]|]; try reflexivity.
  rewrite on_chat_input_unfold by discriminate.
  rewrite answer_unfold.
  destruct (pick _ _) as [context|e]; [|reflexivity].
  destruct (generator _ _ _); reflexivity.
Qed.

(** A run in a session that holds the pipeline, with or without a
    history. *)
Lemma script_with_pipeline (fs : filesystem) (user_input : option str)
  (p : RAGPipeline) (m : option (list message)) :
  script fs user_input (mk_session (Some p) m)
  = let '(o, pg, log) :=
      on_chat_input user_input (mk_page p (default_arg [] m)) in
    (o, mk_session (Some (pipeline pg)) (Some (messages pg)),
     EvTitle title_text :: drawn (default_arg [] m) ++ log).
Proof.
  unfold script, cached_get_pipeline, ensure_messages, on_page.
  unfold bind, emit, modify.
  cbn [cached_pipeline session_messages default_arg].
  rewrite render_history_run. cbn [messages].
  destruct (on_chat_input user_input (mk_page p (default_arg [] m)))
    as [[o pg] log].
  reflexivity.
Qed.

(** The first run of a session, by what [get_pipeline] comes to. *)
Lemma script_first_run (fs : filesystem) (user_input : option str)
  (m : option (list message)) :
  script fs user_input (mk_session None m)
  = match get_pipeline fs tt with
    | (Ret p, _, built_log) =>
        let '(o, pg, log) :=
          on_chat_input user_input (mk_page p (default_arg [] m)) in
        (o, mk_session (Some (pipeline pg)) (Some (messages pg)),
         EvTitle title_text :: built_log ++ drawn (default_arg [] m) ++ log)
    | (Raise e, _, built_log) =>
        (Raise e, mk_session None m, EvTitle title_text :: built_log)
    end.
Proof.
  unfold script, cached_get_pipeline, ensure_messages, on_page.
  unfold bind at 1, emit at 1. unfold bind at 1.
  cbn [cached_pipeline].
  destruct (get_pipeline fs tt) as [[[p|e] u] built_log]; [|reflexivity].
  unfold bind, modify. cbn [cached_pipeline session_messages default_arg].
  rewrite render_history_run. cbn [messages].
  destruct (on_chat_input user_input (mk_page p (default_arg [] m)))
    as [[o pg] log].
  reflexivity.
Qed.

Lemma get_pipeline_run (fs : filesystem) (content : str) :
  fs Loader.default_file_path = Some content ->
  get_pipeline fs tt = init (documents_of content) None None tt.
Proof.
  intros Hfs. unfold get_pipeline, bind.
  rewrite (@load_news_run unit fs None content tt Hfs).
  destruct (init (documents_of content) None None tt) as [[o u] log].
  reflexivity.
Qed.

(** A run in a session whose pipeline is cached does not touch the
    corpus file: it comes out the same over any two file systems, the
    cached pipeline stays the one it was, and nothing is loaded, encoded
    into the index or rebuilt. *)
Theorem cached_run_ignores_files (fs fs' : filesystem)
  (user_input : option str) (p : RAGPipeline) (m : option (list message)) :
  script fs user_input (mk_session (Some p) m)
  = script fs' user_input (mk_session (Some p) m)
  /\ cached_pipeline (state_of (script fs user_input (mk_session (Some p) m)))
     = Some p
  /\ count_events is_build_event
       (log_of (script fs user_input (mk_session (Some p) m))) = 0.
Proof.
  rewrite !script_with_pipeline.
  pose proof (on_chat_input_state user_input (mk_page p (default_arg [] m)))
    as Hstate.
  pose proof (on_chat_input_no_build user_input
                (mk_page p (default_arg [] m))) as Hlog.
  destruct (on_chat_input user_input (mk_page p (default_arg [] m)))
    as [[o pg] log].
  unfold state_of, log_of in *. cbn [fst snd] in *. subst pg.
  repeat split.
  change (EvTitle title_text :: drawn (default_arg [] m) ++ log)
    with ([EvTitle title_text] ++ drawn (default_arg [] m) ++ log).
  rewrite !count_events_app, drawn_no_build, Hlog. reflexivity.
Qed.

(** A run in which nothing was submitted, or an empty text, changes
    nothing: the session is left as it was, no model is called, and the
    page shows the title and the stored history, entry by entry in
    order. *)
Theorem idle_run_changes_nothing (fs : filesystem) (p : RAGPipeline)
  (msgs : list message) :
  script fs None (mk_session (Some p) (Some msgs))
  = (Ret tt, mk_session (Some p) (Some msgs),
     EvTitle title_text :: drawn msgs)
  /\ script fs (Some []) (mk_session (Some p) (Some msgs))
     = (Ret tt, mk_session (Some p) (Some msgs),
        EvTitle title_text :: drawn msgs).
Proof.
  rewrite !script_with_pipeline. cbn. now rewrite !app_nil_r.
Qed.

(** Over any sequence of runs in a session, the history is the one the
    session started with followed, run by run, by the entries of the
    turn: for a submitted text that is not empty its user entry, then the
    assistant entry when the pipeline answered; nothing otherwise.  The
    cached pipeline is the same object throughout, so every answer is the
    one the first pipeline gives. *)
Theorem runs_extend_history (fs : filesystem)
  (inputs : list (option str)) (p : RAGPipeline) (msgs : list message) :
  runs fs inputs (mk_session (Some p) (Some msgs))
  = mk_session (Some p) (Some (msgs ++ flat_map (turn_entries p) inputs)).
Proof.
  revert msgs. induction inputs as [|user_input inputs IH]; intros msgs.
  - cbn. now rewrite app_nil_r.
  - cbn [runs fold_left flat_map].
    rewrite script_with_pipeline. cbn [default_arg].
    pose proof (on_chat_input_state user_input (mk_page p msgs)) as Hstate.
    destruct (on_chat_input user_input (mk_page p msgs)) as [[o pg] log].
    unfold state_of in *. cbn [fst snd] in *. subst pg.
    cbn [pipeline messages].
    change (fold_left
              (fun s ui => snd (fst (script fs ui s))) inputs
              (mk_session (Some p)
                 (Some (msgs ++ turn_entries p user_input))))
      with (runs fs inputs
              (mk_session (Some p)
                 (Some (msgs ++ turn_entries p user_input)))).
    rewrite IH. now rewrite <- app_assoc.
Qed.

(** When [pipeline.answer] raises, the exception leaves the handler:
    the user entry stays in the history without an assistant entry,
    nothing is written to the page, and the pipeline is left as it
    was. *)
Theorem failed_answer_leaves_user_entry (input : str) (pg : Page)
  (e : exn) :
  input <> [] ->
  result_of (answer input (pipeline pg)) = Raise e ->
  on_chat_input (Some input) pg
  = (Raise e,
     mk_page (pipeline pg) (messages pg ++ [user_entry input]),
     log_of (answer input (pipeline pg))).
Proof.
  intros Hin Hraise. rewrite on_chat_input_unfold by exact Hin.
  pose proof (answer_frame input (pipeline pg)) as [Hp _].
  destruct (answer input (pipeline pg)) as [[[reply|e'] p'] log];
    unfold state_of, result_of, log_of in *; cbn [fst snd] in *;
    [discriminate|].
  injection Hraise as ->. subst p'. reflexivity.
Qed.

(** A first run that finds no corpus file ends with an exception of
    class [FileNotFoundError]: the title is all the page shows, no model
    is loaded, and the session is left without pipeline and as it was. *)
Theorem first_run_without_file (fs : filesystem)
  (user_input : option str) (m : option (list message)) :
  fs Loader.default_file_path = None ->
  exists e,
    script fs user_input (mk_session None m)
    = (Raise e, mk_session None m, [EvTitle title_text])
    /\ exn_class_of e = FileNotFoundError.
Proof.
  intros Hfs. exists (file_not_found Loader.default_file_path).
  split; [|reflexivity].
  rewrite script_first_run. unfold get_pipeline, bind.
  rewrite (@load_news_absent unit fs None tt Hfs). reflexivity.
Qed.

(** A first run over a corpus file without any line that is not blank
    ends with the [IndexError] of the constructor: nothing is cached, so
    the next run starts over. *)
Theorem first_run_without_documents (fs : filesystem) (content : str)
  (user_input : option str) (m : option (list message)) :
  fs Loader.default_file_path = Some content ->
  documents_of content = [] ->
  script fs user_input (mk_session None m)
  = (Raise Faiss.tuple_index_error, mk_session None m,
     [EvTitle title_text; EvLoadModel default_embedding_model; EvEncode []]).
Proof.
  intros Hfs Hnone. rewrite script_first_run.
  rewrite (get_pipeline_run _ Hfs), Hnone. reflexivity.
Qed.

(** A first run over a corpus file with at least one document builds the
    pipeline from the documents of the file, with the default models and
    a single addition to the index, before anything else is drawn, keeps
    it in the session, and starts the history from nothing. *)
Theorem first_run_builds_from_file (fs : filesystem) (content : str)
  (user_input : option str) :
  fs Loader.default_file_path = Some content ->
  documents_of content <> [] ->
  let p := built (documents_of content) None None in
  state_of (script fs user_input (mk_session None None))
  = mk_session (Some p) (Some (turn_entries p user_input))
  /\ exists turn_log,
       log_of (script fs user_input (mk_session None None))
       = [EvTitle title_text;
          EvLoadModel default_embedding_model;
          EvEncode (documents_of content);
          EvIndexAdd (List.length (documents_of content));
          EvLoadModel default_gen_model] ++ turn_log
       /\ count_events is_build_event turn_log = 0.
Proof.
  intros Hfs Hdocs p. rewrite script_first_run.
  rewrite (get_pipeline_run _ Hfs), (init_nonempty tt None None Hdocs).
  fold p. cbn [default_arg].
  pose proof (on_chat_input_state user_input (mk_page p [])) as Hstate.
  pose proof (on_chat_input_no_build user_input (mk_page p [])) as Hlog.
  destruct (on_chat_input user_input (mk_page p [])) as [[o pg] log].
  unfold state_of, log_of in *. cbn [fst snd] in *. subst pg.
  split; [reflexivity|]. exists log. split; [reflexivity|exact Hlog].
Qed.

Lemma join_In (sep : str) (parts : list str) (c : char) :
  In c (join sep parts) -> In c sep \/ exists part, In part parts /\ In c part.
Proof.
  induction parts as [|part parts IH]; [simpl; tauto|].
  destruct parts as [|part' parts].
  - simpl. intros H. right. exists part. auto.
  - change (join sep (part :: part' :: parts))
      with (part ++ sep ++ join sep (part' :: parts)).
    intros H. apply in_app_or in H as [H | H].
    + right. exists part. split; [now left|exact H].
    + apply in_app_or in H as [H | H]; [now left|].
      apply IH in H as [H | [q [Hq Hc]]]; [now left|].
      right. exists q. split; [now right|exact Hc].
Qed.

Lemma join_single_line (parts : list str) :
  Forall single_line parts -> single_line (join (lit " ") parts).
Proof.
  intros Hall. rewrite Forall_forall in Hall.
  split; intros H; apply join_In in H as [H | [part [Hp Hc]]];
    try (destruct H as [H | []]; discriminate).
  - now apply (proj1 (Hall part Hp)).
  - now apply (proj2 (Hall part Hp)).
Qed.

(** From the corpus file to the prompt: the context block [answer]
    hands to the generator, made of documents loaded from the file, holds
    no line terminator, so the blank line of the template is the first
    one of the prompt. *)
Theorem loaded_context_is_one_line (fs : filesystem) (content query : str) :
  fs Loader.default_file_path = Some content ->
  documents_of content <> [] ->
  exists p context,
    result_of (get_pipeline fs tt) = Ret p
    /\ result_of (retrieve query None p) = Ret context
    /\ single_line (join (lit " ") context)
    /\ log_of (answer query p)
       = [EvEncode [query]; EvIndexSearch 1 3;
          EvGenerate
            (lit "Context: " ++ join (lit " ") context ++ [LF; LF]
             ++ lit "Question: " ++ query ++ [LF] ++ lit "Answer:") 64].
Proof.
  intros Hfs Hdocs.
  set (corpus := documents_of content) in *.
  pose proof (label_row_in_range None None query 3 Hdocs) as Hrange.
  exists (built corpus None None),
         (List.map (resolve corpus)
            (label_row (built corpus None None) query default_top_k)).
  split.
  { rewrite (get_pipeline_run _ Hfs). fold corpus.
    now rewrite (init_nonempty tt None None Hdocs). }
  split; [rewrite retrieve_built;
          [reflexivity|exact Hdocs|unfold default_arg, default_top_k; lia]|].
  split.
  { apply join_single_line. apply Forall_forall. intros doc Hdoc.
    apply in_map_iff in Hdoc as [i [<- Hi]].
    rewrite Forall_forall in Hrange.
    destruct (getitem_resolve _ (Hrange i Hi)) as [_ Hin].
    pose proof (documents_single_line content) as Hsl.
    rewrite Forall_forall in Hsl. now apply Hsl. }
  rewrite answer_unfold. cbn [built docs].
  rewrite pick_resolve by exact Hrange. reflexivity.
Qed.

End WithModels.

Example three_runs :
  runs (MH := Sample.hub) Cases.no_file
    [Some Sample.query; None; Some (lit "Hello")]
    (mk_session (Some Cases.mute_pipeline) (Some []))
  = mk_session (Some Cases.mute_pipeline)
      (Some [user_entry Sample.query; user_entry (lit "Hello")]).
Proof. vm_compute. reflexivity. Qed.

Lemma failed_answer_leaves_user_entry_witness :
  Sample.query <> []
  /\ result_of (answer Sample.query Cases.mute_pipeline) = Raise index_error
  /\ on_chat_input (Some Sample.query) (mk_page Cases.mute_pipeline [])
     = (Raise index_error,
        mk_page Cases.mute_pipeline [user_entry Sample.query],
        log_of (answer Sample.query Cases.mute_pipeline)).
Proof.
  split; [discriminate|]. split; [vm_compute; reflexivity|].
  apply (@failed_answer_leaves_user_entry Sample.Zn Sample.query
           (mk_page Cases.mute_pipeline []) index_error).
  - discriminate.
  - vm_compute. reflexivity.
Defined.

Lemma first_run_without_file_witness :
  Cases.no_file Loader.default_file_path = None
  /\ exists e,
       script (MH := Sample.hub) Cases.no_file (Some Sample.query)
         (mk_session None None)
       = (Raise e, mk_session None None, [EvTitle title_text])
       /\ exn_class_of e = FileNotFoundError.
Proof.
  split; [reflexivity|].
  apply (@first_run_without_file Sample.Zn Sample.hub Cases.no_file
           (Some Sample.query) None).
  reflexivity.
Defined.

Lemma first_run_without_documents_witness :
  Cases.blank_file Loader.default_file_path = Some [32; LF; 9; CR; LF]%N
  /\ documents_of [32; LF; 9; CR; LF]%N = []
  /\ script (MH := Sample.hub) Cases.blank_file None (mk_session None None)
     = (Raise Faiss.tuple_index_error, mk_session None None,
        [EvTitle title_text; EvLoadModel default_embedding_model;
         EvEncode []]).
Proof.
  split; [reflexivity|]. split; [reflexivity|].
  apply (@first_run_without_documents Sample.Zn Sample.hub Cases.blank_file
           [32; LF; 9; CR; LF]%N None None); reflexivity.
Defined.

Lemma first_run_builds_from_file_witness :
  Cases.written Loader.default_file_path
  = Some (unlines Cases.two_documents)
  /\ documents_of (unlines Cases.two_documents) <> []
  /\ state_of (script (MH := Sample.hub) Cases.written None
                 (mk_session None None))
     = mk_session
         (Some (built (MH := Sample.hub)
                  (documents_of (unlines Cases.two_documents)) None None))
         (Some []).
Proof.
  split; [reflexivity|]. split; [discriminate|].
  apply (proj1 (@first_run_builds_from_file Sample.Zn Sample.hub
                  Cases.written (unlines Cases.two_documents) None
                  eq_refl ltac:(discriminate))).
Defined.

Lemma loaded_context_is_one_line_witness :
  Cases.written Loader.default_file_path
  = Some (unlines Cases.two_documents)
  /\ documents_of (unlines Cases.two_documents) <> []
  /\ exists p context,
       result_of (get_pipeline (MH := Sample.hub) Cases.written tt) = Ret p
       /\ result_of (retrieve Sample.query None p) = Ret context
       /\ single_line (join (lit " ") context).
Proof.
  split; [reflexivity|]. split; [discriminate|].
  destruct (@loaded_context_is_one_line Sample.Zn Sample.hub Cases.written
              (unlines Cases.two_documents) Sample.query
              eq_refl ltac:(discriminate))
    as [p [context [Hp [Hc [Hs _]]]]].
  exists p, context. exact (conj Hp (conj Hc Hs)).
Defined.

End AppMore.

(* ================================================================== *)
(** * ollama_langchain_agent.py: the run that succeeds, the switch *)
(* ================================================================== *)

Module AgentMore.
Import Agent Spec AgentFacts.

Local Open Scope Z_scope.

Section WithLangChain.
Context {LC : LangChain}.


End WithLangChain.

(** The switch is one way: once a date selects the larger model, every
    later date selects it too. *)
Theorem selection_never_reverts (earlier later : date) :
  valid_date earlier -> valid_date later ->
  toordinal earlier <= toordinal later ->
  llm_model earlier = lit "llama2" ->
  llm_model later = lit "llama2".
Proof.
  intros Hve Hvl Hle Hsel. unfold llm_model in *.
  destruct (date_gt earlier target_date) eqn:Ee; [|discriminate].
  apply (date_gt_target Hve) in Ee.
  assert (Hl : date_gt later target_date = true)
    by (apply (date_gt_target Hvl); lia).
  now rewrite Hl.
Qed.


Lemma selection_never_reverts_witness :
  valid_date (mk_date 2024 6 13) /\ valid_date Sample.today
  /\ toordinal (mk_date 2024 6 13) <= toordinal Sample.today
  /\ llm_model (mk_date 2024 6 13) = lit "llama2"
  /\ llm_model Sample.today = lit "llama2".
Proof.
  assert (Hv1 : valid_date (mk_date 2024 6 13))
    by (vm_compute; intuition discriminate).
  assert (Hv2 : valid_date Sample.today)
    by (vm_compute; intuition discriminate).
  split; [exact Hv1|]. split; [exact Hv2|].
  split; [vm_compute; discriminate|]. split; [reflexivity|].
  apply (@selection_never_reverts (mk_date 2024 6 13) Sample.today Hv1 Hv2).
  - vm_compute. discriminate.
  - reflexivity.
Defined.

End AgentMore.
